(** * MathMark2PDF: the editor core of [src/App.tsx] and its fuller
      variant [src/unnamed/part_002], with [insertMarkdown] of
      [src/unnamed/part_001].

    The development embeds the history manager (bounded undo/redo with a
    debounced commit), the proportional scroll synchroniser, the
    click-to-sync position mapper, preset saving and the Markdown
    insertion helper, and states the properties of the specification
    over these embeddings.

    Conventions.
    - JS strings are [string]; a character of the model is one code
      unit in the range 0..255, and [String.length] is [.length].
    - Indices, lengths and clock readings are natural numbers: the
      code never lets them go below zero ([undo] tests
      [historyIndex > 0] before it subtracts).
    - An array read out of range yields [undefined]; a read is a list
      lookup [l !! i : option _] and [None] stands for [undefined].
    - React state atoms are fields of a record; a state updater
      [setX(prev => ...)] is a function of [prev]; the variables an
      arrow function closes over are explicit arguments (the values of
      the render in which the closure was created). *)

From Stdlib Require Import ZArith QArith Qabs Lia Ascii String.
From stdpp Require Import base list strings pretty gmap.

Open Scope nat_scope.

(** The two versions of the application component that the repository
    carries. *)
Inductive Source := AppTsx | Part002.

(* ===================================================================== *)
(** * JS strings *)
(* ===================================================================== *)

Module JS.

(** The line feed of the JS escape [\n]. *)
Definition LF : ascii := "010"%char.
Definition nl : string := String LF "".

Fixpoint str_take (n : nat) (s : string) : string :=
  match n, s with
  | S n', String a r => String a (str_take n' r)
  | _, _ => ""
  end.

Fixpoint str_drop (n : nat) (s : string) : string :=
  match n, s with
  | S n', String _ r => str_drop n' r
  | _, _ => s
  end.

(** [s.substring(start, end)] for non-negative integer arguments: both
    are clamped to the length and swapped when [start > end]. *)
Definition substring (s : string) (start end_ : nat) : string :=
  let len := String.length s in
  let finalStart := start `min` len in
  let finalEnd := end_ `min` len in
  let from := finalStart `min` finalEnd in
  let to := finalStart `max` finalEnd in
  str_take (to - from) (str_drop from s).

(** [s.substring(start)]: the end defaults to the length. *)
Definition substring_from (s : string) (start : nat) : string :=
  substring s start (String.length s).

(** [s.split(sep)] for a one-character separator: the pieces between
    the separators, one more than there are separators. *)
Fixpoint split (sep : ascii) (s : string) : list string :=
  match s with
  | "" => [""]
  | String a r =>
      if bool_decide (a = sep) then "" :: split sep r
      else match split sep r with
           | piece :: pieces => String a piece :: pieces
           | [] => [String a ""]
           end
  end.

(** Number of occurrences of a character. *)
Fixpoint count (c : ascii) (s : string) : nat :=
  match s with
  | "" => 0
  | String a r => (if bool_decide (a = c) then 1 else 0) + count c r
  end.

(** WhiteSpace and LineTerminator code units below 256: TAB, LF, VT,
    FF, CR, SP and NBSP. *)
Definition is_white_space (a : ascii) : bool :=
  let n := nat_of_ascii a in
  bool_decide (9 <= n <= 13) || bool_decide (n = 32) || bool_decide (n = 160).

Fixpoint trimStart (s : string) : string :=
  match s with
  | String a r => if is_white_space a then trimStart r else s
  | "" => ""
  end.

Definition trimEnd (s : string) : string :=
  String.rev (trimStart (String.rev s)).

(** [s.trim()] *)
Definition trim (s : string) : string := trimEnd (trimStart s).

(** Truthiness of a string: the empty string is falsy. *)
Definition truthy (s : string) : bool := negb (bool_decide (s = "")).

(** [a || b] on strings. *)
Definition or_else (a b : string) : string := if truthy a then a else b.

Fixpoint all_white_space (s : string) : bool :=
  match s with
  | "" => true
  | String a r => is_white_space a && all_white_space r
  end.

End JS.

(* ===================================================================== *)
(** * History manager *)
(* ===================================================================== *)

Module History.

(** The callback scheduled by [setTimeout(() => updateHistory(newContent), 700)].
    [updateHistory] is the function of the render in which
    [handleContentChange] ran, hence the callback carries that render's
    [history] and [historyIndex] next to [newContent]. *)
Record Timer := mkTimer {
  tm_due : nat;                    (* clock value at which the timer is due *)
  tm_newContent : string;
  tm_history : list string;        (* [history] of the creating render *)
  tm_historyIndex : nat            (* [historyIndex] of the creating render *)
}.

Record AppState := mkApp {
  history : list string;           (* useState<string[]>([defaultMarkdown]) *)
  historyIndex : nat;              (* useState(0) *)
  content : option string;         (* doc.content; None is undefined *)
  debounceRef : option Timer;      (* the live timer of debounceRef.current *)
  clock : nat                      (* logical time in milliseconds *)
}.

(** [setHistory(prev => ...)] of [updateHistory]; [historyIndex] is the
    closed-over index. *)
Definition setHistory_updater (historyIndex : nat) (newContent : string)
    (prev : list string) : list string :=
  if bool_decide (prev !! historyIndex = Some newContent) then prev
  else
    let newHistory := take (historyIndex + 1) prev ++ [newContent] in
    if bool_decide (100 < length newHistory) then drop 1 newHistory
    else newHistory.

(** [setHistoryIndex(prev => ...)] of [updateHistory]; [history] is the
    closed-over array. *)
Definition setHistoryIndex_updater (src : Source) (history : list string)
    (newContent : string) (prev : nat) : nat :=
  match src with
  | AppTsx =>
      if bool_decide (history !! prev = Some newContent) then prev
      else prev + 1
  | Part002 =>
      let currentContent := history !! prev in
      if bool_decide (currentContent = Some newContent) then prev
      else if bool_decide (prev < length history)
           then length (take (prev + 1) history)
           else prev + 1
  end.

(** [updateHistory(newContent)] of a render whose state was
    [(cl_history, cl_historyIndex)], executed in state [s]. *)
Definition updateHistory (src : Source) (cl_history : list string)
    (cl_historyIndex : nat) (newContent : string) (s : AppState) : AppState :=
  {| history := setHistory_updater cl_historyIndex newContent (history s);
     historyIndex :=
       setHistoryIndex_updater src cl_history newContent (historyIndex s);
     content := content s;
     debounceRef := debounceRef s;
     clock := clock s |}.

Definition handleContentChange (src : Source) (newContent : string)
    (immediate : bool) (s : AppState) : AppState :=
  let s1 := {| history := history s; historyIndex := historyIndex s;
               content := Some newContent;
               debounceRef := None;             (* clearTimeout *)
               clock := clock s |} in
  if immediate then
    updateHistory src (history s) (historyIndex s) newContent s1
  else
    {| history := history s1; historyIndex := historyIndex s1;
       content := content s1;
       debounceRef := Some (mkTimer (clock s + 700) newContent
                                    (history s) (historyIndex s));
       clock := clock s1 |}.

Definition undo (src : Source) (s : AppState) : AppState :=
  if bool_decide (0 < historyIndex s) then
    let newIndex := historyIndex s - 1 in
    {| history := history s;
       historyIndex := newIndex;
       content := history s !! newIndex;
       debounceRef := match src with
                      | AppTsx => debounceRef s
                      | Part002 => None         (* clearTimeout *)
                      end;
       clock := clock s |}
  else s.

Definition redo (src : Source) (s : AppState) : AppState :=
  if bool_decide (Z.of_nat (historyIndex s) < Z.of_nat (length (history s)) - 1)%Z
  then
    let newIndex := historyIndex s + 1 in
    {| history := history s;
       historyIndex := newIndex;
       content := history s !! newIndex;
       debounceRef := match src with
                      | AppTsx => debounceRef s
                      | Part002 => None         (* clearTimeout *)
                      end;
       clock := clock s |}
  else s.

(** [ms] milliseconds pass without a user event; a timer that is due
    runs its callback. *)
Definition elapse (src : Source) (ms : nat) (s : AppState) : AppState :=
  let now := clock s + ms in
  let s1 := {| history := history s; historyIndex := historyIndex s;
               content := content s; debounceRef := debounceRef s;
               clock := now |} in
  match debounceRef s with
  | Some t =>
      if bool_decide (tm_due t <= now) then
        updateHistory src (tm_history t) (tm_historyIndex t) (tm_newContent t)
          {| history := history s; historyIndex := historyIndex s;
             content := content s; debounceRef := None; clock := now |}
      else s1
  | None => s1
  end.

Inductive Event :=
  | Change (newContent : string) (immediate : bool)
  | Undo
  | Redo
  | Elapse (ms : nat).

Definition step (src : Source) (s : AppState) (e : Event) : AppState :=
  match e with
  | Change c imm => handleContentChange src c imm s
  | Undo => undo src s
  | Redo => redo src s
  | Elapse ms => elapse src ms s
  end.

Definition run (src : Source) (es : list Event) (s : AppState) : AppState :=
  foldl (step src) s es.

(** The state after mount: [useState([defaultMarkdown])], or
    [setHistory([parsed.content]); setHistoryIndex(0)] after an autosave
    was loaded. *)
Definition init (d : string) : AppState :=
  {| history := [d]; historyIndex := 0; content := Some d;
     debounceRef := None; clock := 0 |}.

Definition Reachable (src : Source) (s : AppState) : Prop :=
  exists d es, s = run src es (init d).

(** The invariant of the specification. *)
Definition index_in_range (s : AppState) : Prop :=
  0 <= historyIndex s < length (history s).

(** No two neighbouring snapshots are equal. *)
Definition no_adjacent_dup (l : list string) : Prop :=
  forall i x y, l !! i = Some x -> l !! (i + 1) = Some y -> x <> y.

(** [n] successive toolbar insertions ([handleContentChange(text, true)])
    producing the texts "1", "2", ..., the decimal numerals up to [n]. *)
Definition toolbar_inserts (n : nat) : list Event :=
  (fun k => Change (pretty (S k)) true) <$> seq 0 n.

(** A burst of keystrokes ([handleContentChange(c)], immediate = false):
    each call comes [gap] milliseconds after the one before it. *)
Fixpoint burst (calls : list (nat * string)) : list Event :=
  match calls with
  | [] => []
  | (gap, c) :: rest => Elapse gap :: Change c false :: burst rest
  end.


(** The state right after a keystroke at time [t] that follows state
    [s] with no commit in between. *)
Definition awaiting (c : string) (s : AppState) (t : nat) : AppState :=
  {| history := history s; historyIndex := historyIndex s;
     content := Some c;
     debounceRef := Some (mkTimer (t + 700) c (history s) (historyIndex s));
     clock := t |}.

(** A pending callback is fresh when the values it closed over are
    still the current ones. *)
Definition timer_fresh (s : AppState) : Prop :=
  forall t, debounceRef s = Some t ->
    tm_history t = history s /\ tm_historyIndex t = historyIndex s.

(** The two invariants of the specification together with freshness. *)
Definition well_formed (s : AppState) : Prop :=
  index_in_range s /\ no_adjacent_dup (history s) /\ timer_fresh s.

(** What the specification claims of undo followed by redo. *)
Definition undo_redo_restores (src : Source) (s : AppState) : Prop :=
  let s' := redo src (undo src s) in
  content s' = content s /\
  historyIndex s' = historyIndex s /\
  history s' !! historyIndex s' = history s !! historyIndex s.


End History.

(* ===================================================================== *)
(** * Scroll synchroniser *)
(* ===================================================================== *)

Module Scroll.

(** A JS number as far as [handleScroll] can tell values apart: a
    finite value, or one of the three special values of IEEE 754.
    Finite values are exact rationals; rounding and the sign of zero are
    left out (the divisor [scrollHeight - clientHeight] is a difference
    of integers, whose zero is +0). *)
Inductive jsnum := Fin (q : Q) | PInf | NInf | NaN.

Definition is_finite (x : jsnum) : bool :=
  match x with Fin _ => true | _ => false end.

(** The infinity with the sign of [q], for [q] not zero. *)
Definition inf_of_sign (q : Q) : jsnum :=
  if Qle_bool 0 q then PInf else NInf.

Definition jneg (x : jsnum) : jsnum :=
  match x with
  | Fin q => Fin (- q)
  | PInf => NInf
  | NInf => PInf
  | NaN => NaN
  end.

(** [a - b] *)
Definition jsub (a b : jsnum) : jsnum :=
  match a, b with
  | NaN, _ | _, NaN => NaN
  | Fin x, Fin y => Fin (x - y)
  | PInf, PInf | NInf, NInf => NaN
  | PInf, _ | _, NInf => PInf
  | NInf, _ | _, PInf => NInf
  end.

(** [a / b] *)
Definition jdiv (a b : jsnum) : jsnum :=
  match a, b with
  | NaN, _ | _, NaN => NaN
  | Fin x, Fin y =>
      if Qeq_bool y 0 then (if Qeq_bool x 0 then NaN else inf_of_sign x)
      else Fin (x / y)
  | Fin _, _ => Fin 0
  | _, Fin y => if Qle_bool 0 y then a else jneg a
  | _, _ => NaN
  end.

(** [a * b] *)
Definition jmul (a b : jsnum) : jsnum :=
  match a, b with
  | NaN, _ | _, NaN => NaN
  | Fin x, Fin y => Fin (x * y)
  | Fin x, inf | inf, Fin x =>
      if Qeq_bool x 0 then NaN
      else if Qle_bool 0 x then inf else jneg inf
  | PInf, PInf | NInf, NInf => PInf
  | _, _ => NInf
  end.

(** [Math.abs(a)] *)
Definition jabs (a : jsnum) : jsnum :=
  match a with
  | Fin x => Fin (Qabs x)
  | NaN => NaN
  | _ => PInf
  end.

(** [a > b]; every comparison with NaN is false. *)
Definition jgt (a b : jsnum) : bool :=
  match a, b with
  | NaN, _ | _, NaN => false
  | Fin x, Fin y => negb (Qle_bool x y)
  | PInf, PInf | NInf, _ | _, PInf => false
  | _, _ => true
  end.

(** The three scroll metrics of a pane.  The DOM reports finite
    numbers, integers for the two heights. *)
Record Pane := mkPane {
  scrollTop : Q;
  scrollHeight : Z;
  clientHeight : Z
}.

Inductive PaneName := editor | preview.

(** [x.scrollHeight - x.clientHeight] *)
Definition scrollable (x : Pane) : jsnum :=
  jsub (Fin (inject_Z (scrollHeight x))) (Fin (inject_Z (clientHeight x))).

(** [const percentage = x.scrollTop / (x.scrollHeight - x.clientHeight)] *)
Definition percentage (x : Pane) : jsnum :=
  jdiv (Fin (scrollTop x)) (scrollable x).

(** One branch of [handleScroll]: the scroll event came from pane
    [from]; the result is the value assigned to [to.scrollTop], or
    [None] when the branch assigns nothing. *)
Definition sync (src : Source) (from to : Pane) : option jsnum :=
  let targetScroll := jmul (percentage from) (scrollable to) in
  match src with
  | AppTsx => Some targetScroll
  | Part002 =>
      if jgt (jabs (jsub (Fin (scrollTop to)) targetScroll)) (Fin 10)
      then Some targetScroll
      else None
  end.

(** [handleScroll(source)]: the pane written and the value assigned to
    its [scrollTop].  A ref is [None] while its element is not mounted. *)
Definition handleScroll (src : Source) (source : PaneName)
    (editorRef previewRef : option Pane) : option (PaneName * jsnum) :=
  match editorRef, previewRef with
  | Some e, Some p =>
      match source with
      | editor => (fun v => (preview, v)) <$> sync src e p
      | preview => (fun v => (editor, v)) <$> sync src p e
      end
  | _, _ => None
  end.

(** The pane a scroll event comes from, and the pane it is copied to. *)
Definition other (source : PaneName) : PaneName :=
  match source with editor => preview | preview => editor end.

Definition pane_of (name : PaneName) (e p : Pane) : Pane :=
  match name with editor => e | preview => p end.

(** What the specification claims of the ratio. *)
Definition ratio_guarded (x : Pane) : Prop :=
  is_finite (percentage x) = true /\
  (scrollHeight x = clientHeight x -> percentage x = Fin 0).

End Scroll.

(* ===================================================================== *)
(** * Position mapper (click-to-sync) of [src/unnamed/part_002] *)
(* ===================================================================== *)

Module Sync.

(** [FontSize] of [src/types.ts] *)
Inductive FontSize := Small | Medium | Large | ExtraLarge.

(** [lineHeightMap]: line heights in pixels. *)
Definition lineHeightMap (f : FontSize) : Z :=
  match f with
  | Small => 20
  | Medium => 24
  | Large => 28
  | ExtraLarge => 32
  end.

(** An element of the rendered preview.  [data_line] is the attribute
    [data-line]: absent, or the line number that
    [rehypeInjectLineNumber] wrote ([node.position.start.line], a
    number, which the attribute spells in decimal). *)
Record Element := mkElement {
  node_id : nat;
  data_line : option Z
}.

(** [parseInt(el.getAttribute('data-line') || '0')] *)
Definition parseInt_data_line (el : Element) : Z :=
  default 0%Z (data_line el).

Definition has_data_line (el : Element) : bool :=
  match data_line el with Some _ => true | None => false end.

(** [previewEl.querySelectorAll('[data-line]')] over the descendants of
    the preview given in document order. *)
Definition querySelectorAll_data_line (descendants : list Element)
    : list Element :=
  List.filter has_data_line descendants.

(** [target.closest('[data-line]')] over the target and its ancestors,
    the target first. *)
Definition closest_data_line (self_and_ancestors : list Element)
    : option Element :=
  List.find has_data_line self_and_ancestors.

(** [textBefore.split('\n').length] with
    [textBefore = textarea.value.substring(0, cursorPosition)] *)
Definition lineNumber (value : string) (cursorPosition : nat) : nat :=
  let textBefore := JS.substring value 0 cursorPosition in
  length (JS.split JS.LF textBefore).

(** The search of [handleEditorClick] over the annotated elements. *)
Definition findTarget (elements : list Element) (lineNumber : Z)
    : option Element :=
  let target :=
    List.find (fun el => (lineNumber <=? parseInt_data_line el)%Z) elements in
  match target with
  | Some el => Some el
  | None =>
      let reversed := reverse elements in
      List.find (fun el => (parseInt_data_line el <=? lineNumber)%Z) reversed
  end.

(** [handleEditorClick]: the element that is scrolled into view and
    highlighted, [None] when the click does nothing.  [previewEl] is
    the list of descendants of [#markdown-preview], [None] when
    [getElementById] finds no such element. *)
Definition handleEditorClick (isSyncActive : bool) (value : string)
    (selectionStart : nat) (previewEl : option (list Element))
    : option Element :=
  if negb isSyncActive then None
  else
    let cursorPosition := selectionStart in
    let lineNumber := lineNumber value cursorPosition in
    match previewEl with
    | Some descendants =>
        let elements := querySelectorAll_data_line descendants in
        findTarget elements (Z.of_nat lineNumber)
    | None => None
    end.

(** [handlePreviewClick]: the [top] passed to
    [editorContainerRef.current.scrollTo], [None] when the click does
    nothing.  The two booleans say whether [textareaRef.current] and
    [editorContainerRef.current] are set. *)
Definition handlePreviewClick (isSyncActive : bool)
    (self_and_ancestors : list Element)
    (textareaRef editorContainerRef : bool) (fontSize : FontSize)
    : option Z :=
  if negb isSyncActive then None
  else
    match closest_data_line self_and_ancestors with
    | Some target =>
        if textareaRef && editorContainerRef then
          let line := parseInt_data_line target in
          let lineHeight := lineHeightMap fontSize in
          let scrollPos := ((line - 1) * lineHeight)%Z in
          Some (scrollPos - 100)%Z
        else None
    | None => None
    end.

(** The resolution rule in the words of the specification: the first
    element whose line is at or after the clicked line, else the last
    element whose line is at or before it. *)
Definition spec_resolve (elements : list Element) (clicked : Z)
    : option Element :=
  match head (List.filter (fun el => (clicked <=? parseInt_data_line el)%Z)
                          elements) with
  | Some el => Some el
  | None =>
      last (List.filter (fun el => (parseInt_data_line el <=? clicked)%Z)
                        elements)
  end.

(** The elements annotated with the given lines, in document order. *)
Definition annotated (lines : list Z) : list Element :=
  imap (fun i line => mkElement i (Some line)) lines.

(** The scenario text of the specification: three lines. *)
Definition three_lines : string :=
  "line1" +:+ JS.nl +:+ "line2" +:+ JS.nl +:+ "line3".

(** A text of [n] empty lines followed by an empty last line. *)
Fixpoint blank_lines (n : nat) : string :=
  match n with
  | 0 => ""
  | S n' => String JS.LF (blank_lines n')
  end.

End Sync.

(* ===================================================================== *)
(** * Presets *)
(* ===================================================================== *)

Module Presets.

(** [Preset] of [src/types.ts] *)
Record Preset := mkPreset {
  id : string;
  name : string;
  content : string
}.

(** [DEFAULT_PRESETS].  The information sign of the first preset (code
    units U+2139 U+FE0F) appears as its UTF-8 bytes; nothing below
    looks into the contents of the defaults. *)
Definition DEFAULT_PRESETS : list Preset :=
  [ mkPreset "default-1" "Info Callout" "> ℹ️ **Info:** ";
    mkPreset "default-2" "Math Block"
      (JS.nl +:+ "$$" +:+ JS.nl +:+
       " f(x) = \int_{-\infty}^\infty \hat f(\xi)\,e^{2\pi i \xi x} \,d\xi "
       +:+ JS.nl +:+ "$$" +:+ JS.nl);
    mkPreset "default-3" "Checklist"
      ("- [ ] To Do" +:+ JS.nl +:+ "- [ ] In Progress" +:+ JS.nl +:+ "- [ ] Done");
    mkPreset "default-4" "Signature"
      (JS.nl +:+ "---" +:+ JS.nl +:+ "*Generated with **MathMark2PDF***") ].

(** The selection of the editor's textarea. *)
Record Textarea := mkTextarea {
  selectionStart : nat;
  selectionEnd : nat
}.

(** [handleSavePreset(name)] of [src/unnamed/part_002].  [textareaRef]
    is [None] while the textarea is not mounted, [doc_content] is
    [doc.content] and [Date_now] the reading of [Date.now()].  The
    result is the preset collection after [setPresets] and whether the
    alert was shown. *)
Definition handleSavePreset (textareaRef : option Textarea)
    (doc_content : string) (Date_now : N) (name : string)
    (presets : list Preset) : list Preset * bool :=
  match textareaRef with
  | None => (presets, false)
  | Some textarea =>
      let start := selectionStart textarea in
      let end_ := selectionEnd textarea in
      let selectedText := JS.substring doc_content start end_ in
      if negb (JS.truthy (JS.trim selectedText)) then (presets, true)
      else
        let newPreset :=
          {| id := pretty Date_now; name := name; content := selectedText |} in
        (presets ++ [newPreset], false)
  end.

(** The [onSavePreset] prop handed to the toolbar: [(name) => {}] in
    [src/App.tsx], [handleSavePreset] in [src/unnamed/part_002]. *)
Definition onSavePreset (src : Source) (textareaRef : option Textarea)
    (doc_content : string) (Date_now : N) (name : string)
    (presets : list Preset) : list Preset * bool :=
  match src with
  | AppTsx => (presets, false)
  | Part002 => handleSavePreset textareaRef doc_content Date_now name presets
  end.

(** [handleDeletePreset(id)] *)
Definition handleDeletePreset (id0 : string) (presets : list Preset)
    : list Preset :=
  List.filter (fun p => negb (bool_decide (id p = id0))) presets.

(** ** Persistence *)

(** What [JSON.parse] makes of a stored text, as far as the loader
    looks: an array (of presets), some other value, or a syntax
    error.  [JSON.stringify] of a preset collection is a text that
    parses back to that collection. *)
Inductive Stored :=
  | ParsesToArray (items : list Preset)
  | ParsesToOther
  | Unparsable.

(** [localStorage] *)
Abbreviation localStorage := (gmap string Stored).

(** The effect [localStorage.setItem('md2pdf_presets', JSON.stringify(presets))]
    that runs after every change of [presets]. *)
Definition persist (presets : list Preset) (ls : localStorage) : localStorage :=
  <["md2pdf_presets" := ParsesToArray presets]> ls.

(** The preset part of the mount effect. *)
Definition load (ls : localStorage) : list Preset :=
  match ls !! "md2pdf_presets" with
  | Some (ParsesToArray parsedPresets) =>
      if bool_decide (0 < length parsedPresets) then parsedPresets
      else DEFAULT_PRESETS
  | Some ParsesToOther => DEFAULT_PRESETS
  | Some Unparsable => DEFAULT_PRESETS
  | None => DEFAULT_PRESETS
  end.

(** A reload of the page: the first render has [presets = []]; the
    mount effect reads the store, then the persist effect of that render
    writes the empty collection; the render that follows has the loaded
    presets and its persist effect writes them. *)
Definition reload (ls : localStorage) : list Preset * localStorage :=
  let loaded := load ls in
  (loaded, persist loaded (persist [] ls)).

(** What the specification claims of the id of a saved preset. *)
Definition saved_id_is_new (presets presets' : list Preset) : Prop :=
  exists p, presets' = presets ++ [p] /\ id p ∉ (id <$> presets).

End Presets.

(* ===================================================================== *)
(** * Markdown insertion, [src/unnamed/part_001] *)
(* ===================================================================== *)

Module Markdown.

(** [InsertType] of [src/types.ts] *)
Inductive InsertType :=
  | bold | italic | strike | h1 | h2 | h3 | link | image | quote
  | code | code_block | math | ul | ol | check | table | line.

Record Inserted := mkInserted {
  text : string;
  newCursor : nat
}.

Notation "a || b" := (JS.or_else a b) : string_scope.

Definition len := String.length.

(** The insertion string and the cursor offset chosen by the [switch]. *)
Definition insertion_of (type : InsertType) (selected : string)
    : string * nat :=
  match type with
  | bold =>
      ("**" +:+ (selected || "bold text") +:+ "**",
       if JS.truthy selected then 2 + len selected + 2 else 2 + 9 + 2)
  | italic =>
      ("*" +:+ (selected || "italic text") +:+ "*",
       if JS.truthy selected then 1 + len selected + 1 else 1 + 11 + 1)
  | strike =>
      ("~~" +:+ (selected || "strikethrough") +:+ "~~",
       if JS.truthy selected then 2 + len selected + 2 else 2 + 13 + 2)
  | h1 =>
      ("# " +:+ (selected || "Heading 1"),
       2 + len (selected || "Heading 1"))
  | h2 =>
      ("## " +:+ (selected || "Heading 2"),
       3 + len (selected || "Heading 2"))
  | h3 =>
      ("### " +:+ (selected || "Heading 3"),
       4 + len (selected || "Heading 3"))
  | link =>
      ("[" +:+ (selected || "link text") +:+ "](url)",
       1 + len (selected || "link text") + 1)
  | image =>
      ("![" +:+ (selected || "alt text") +:+ "](image_url)",
       2 + len (selected || "alt text") + 1)
  | quote =>
      (JS.nl +:+ "> " +:+ (selected || "Blockquote") +:+ JS.nl,
       3 + len (selected || "Blockquote") + 1)
  | code =>
      ("`" +:+ (selected || "code") +:+ "`",
       1 + len (selected || "code") + 1)
  | code_block =>
      (JS.nl +:+ "```" +:+ JS.nl +:+ (selected || "code block") +:+ JS.nl
         +:+ "```" +:+ JS.nl,
       5 + len (selected || "code block") + 4)
  | math =>
      (JS.nl +:+ "$$" +:+ JS.nl +:+ (selected || "E = mc^2") +:+ JS.nl
         +:+ "$$" +:+ JS.nl,
       4 + len (selected || "E = mc^2") + 4)
  | ul =>
      (JS.nl +:+ "- " +:+ (selected || "List item"),
       3 + len (selected || "List item"))
  | ol =>
      (JS.nl +:+ "1. " +:+ (selected || "List item"),
       4 + len (selected || "List item"))
  | check =>
      (JS.nl +:+ "- [ ] " +:+ (selected || "Task item"),
       7 + len (selected || "Task item"))
  | table =>
      let insertion :=
        JS.nl +:+ "| Header 1 | Header 2 |" +:+ JS.nl +:+
        "| -------- | -------- |" +:+ JS.nl +:+
        "| Cell 1   | Cell 2   |" +:+ JS.nl in
      (insertion, len insertion)
  | line =>
      (JS.nl +:+ "---" +:+ JS.nl, 5)
  end.

Definition insertMarkdown (text : string) (type : InsertType)
    (selectionStart selectionEnd : nat) : Inserted :=
  let before := JS.substring text 0 selectionStart in
  let selected := JS.substring text selectionStart selectionEnd in
  let after := JS.substring_from text selectionEnd in
  let '(insertion, cursorOffset) := insertion_of type selected in
  {| text := before +:+ insertion +:+ after;
     newCursor := selectionStart + cursorOffset |}.

End Markdown.

(* ===================================================================== *)
(** * Editing handlers that feed the history *)
(* ===================================================================== *)

Module Editing.

(** The text and the caret computed by [insertTextAtCursor]. *)
Definition insertTextAtCursor_result (text : string) (start end_ : nat)
    (textToInsert : string) : string * nat :=
  let before := JS.substring text 0 start in
  let after := JS.substring_from text end_ in
  let newContent := before +:+ textToInsert +:+ after in
  let newCursor := start + String.length textToInsert in
  (newContent, newCursor).

(** [insertTextAtCursor(textToInsert)]: the state after
    [handleContentChange(newContent, true)] and the caret set by the
    deferred [setSelectionRange].  [Some (s, None)] is the early return
    for an unmounted textarea; [None] is the TypeError of
    [doc.content.substring] when the content is [undefined]. *)
Definition insertTextAtCursor (src : Source)
    (textareaRef : option Presets.Textarea) (textToInsert : string)
    (s : History.AppState) : option (History.AppState * option nat) :=
  match textareaRef with
  | None => Some (s, None)
  | Some textarea =>
      match History.content s with
      | None => None
      | Some text =>
          let '(newContent, newCursor) :=
            insertTextAtCursor_result text
              (Presets.selectionStart textarea) (Presets.selectionEnd textarea)
              textToInsert in
          Some (History.handleContentChange src newContent true s,
                Some newCursor)
      end
  end.

(** [handleInsert(type)], with the same conventions. *)
Definition handleInsert (src : Source)
    (textareaRef : option Presets.Textarea) (type : Markdown.InsertType)
    (s : History.AppState) : option (History.AppState * option nat) :=
  match textareaRef with
  | None => Some (s, None)
  | Some textarea =>
      match History.content s with
      | None => None
      | Some doc_content =>
          let r := Markdown.insertMarkdown doc_content type
                     (Presets.selectionStart textarea)
                     (Presets.selectionEnd textarea) in
          Some (History.handleContentChange src (Markdown.text r) true s,
                Some (Markdown.newCursor r))
      end
  end.

(** The placeholder that [insertMarkdown] puts in for an empty
    selection; [table] and [line] have none. *)
Definition placeholder (type : Markdown.InsertType) : string :=
  match type with
  | Markdown.bold => "bold text"
  | Markdown.italic => "italic text"
  | Markdown.strike => "strikethrough"
  | Markdown.h1 => "Heading 1"
  | Markdown.h2 => "Heading 2"
  | Markdown.h3 => "Heading 3"
  | Markdown.link => "link text"
  | Markdown.image => "alt text"
  | Markdown.quote => "Blockquote"
  | Markdown.code => "code"
  | Markdown.code_block => "code block"
  | Markdown.math => "E = mc^2"
  | Markdown.ul => "List item"
  | Markdown.ol => "List item"
  | Markdown.check => "Task item"
  | Markdown.table => ""
  | Markdown.line => ""
  end.

(** The insert types that wrap the selection (all but [table] and
    [line]). *)
Definition wraps_selection (type : Markdown.InsertType) : bool :=
  match type with
  | Markdown.table | Markdown.line => false
  | _ => true
  end.

(** What each wrapping insert type puts before and after the
    selection (or its placeholder). *)
Definition insertion_prefix (type : Markdown.InsertType) : string :=
  match type with
  | Markdown.bold => "**"
  | Markdown.italic => "*"
  | Markdown.strike => "~~"
  | Markdown.h1 => "# "
  | Markdown.h2 => "## "
  | Markdown.h3 => "### "
  | Markdown.link => "["
  | Markdown.image => "!["
  | Markdown.quote => JS.nl +:+ "> "
  | Markdown.code => "`"
  | Markdown.code_block => JS.nl +:+ "```" +:+ JS.nl
  | Markdown.math => JS.nl +:+ "$$" +:+ JS.nl
  | Markdown.ul => JS.nl +:+ "- "
  | Markdown.ol => JS.nl +:+ "1. "
  | Markdown.check => JS.nl +:+ "- [ ] "
  | Markdown.table => ""
  | Markdown.line => ""
  end.

Definition insertion_suffix (type : Markdown.InsertType) : string :=
  match type with
  | Markdown.bold => "**"
  | Markdown.italic => "*"
  | Markdown.strike => "~~"
  | Markdown.link => "](url)"
  | Markdown.image => "](image_url)"
  | Markdown.quote => JS.nl
  | Markdown.code => "`"
  | Markdown.code_block => JS.nl +:+ "```" +:+ JS.nl
  | Markdown.math => JS.nl +:+ "$$" +:+ JS.nl
  | _ => ""
  end.

(** The part of the insertion that lies after the caret. *)
Definition after_caret (type : Markdown.InsertType) : string :=
  match type with
  | Markdown.link => "(url)"
  | Markdown.image => "(image_url)"
  | Markdown.code_block => JS.nl
  | _ => ""
  end.

(** [n] presses of undo. *)
Definition undo_times (src : Source) (n : nat) (s : History.AppState)
    : History.AppState :=
  Nat.iter n (History.undo src) s.

(** [canUndo] and [canRedo] as handed to the toolbar. *)
Definition canUndo (s : History.AppState) : bool :=
  bool_decide (0 < History.historyIndex s).

Definition canRedo (s : History.AppState) : bool :=
  bool_decide (Z.of_nat (History.historyIndex s)
               < Z.of_nat (length (History.history s)) - 1)%Z.

End Editing.

(* ===================================================================== *)
(** * Toolbar: zoom buttons and the preset form *)
(* ===================================================================== *)

Module Toolbar.

(** [onZoomChange(Math.max(50, zoomLevel - 10))] *)
Definition zoomOut (zoomLevel : Z) : Z := Z.max 50 (zoomLevel - 10).

(** [onZoomChange(Math.min(200, zoomLevel + 10))] *)
Definition zoomIn (zoomLevel : Z) : Z := Z.min 200 (zoomLevel + 10).

(** [onZoomChange(100)] *)
Definition zoomReset (zoomLevel : Z) : Z := 100.

Inductive ZoomButton := ZoomOut | ZoomIn | ZoomReset.

Definition press (zoomLevel : Z) (b : ZoomButton) : Z :=
  match b with
  | ZoomOut => zoomOut zoomLevel
  | ZoomIn => zoomIn zoomLevel
  | ZoomReset => zoomReset zoomLevel
  end.

(** [useState(100)] followed by a sequence of button presses. *)
Definition zoom_after (bs : list ZoomButton) : Z := foldl press 100%Z bs.

(** [handleCreatePreset]: the form is submitted with [newPresetName]
    typed in.  The result is what [onSavePreset] returns (collection
    and alert flag) and the content of the name field afterwards. *)
Definition handleCreatePreset (src : Source) (newPresetName : string)
    (textareaRef : option Presets.Textarea) (doc_content : string)
    (Date_now : N) (presets : list Presets.Preset)
    : (list Presets.Preset * bool) * string :=
  if JS.truthy (JS.trim newPresetName) then
    (Presets.onSavePreset src textareaRef doc_content Date_now
       newPresetName presets, "")
  else ((presets, false), newPresetName).

End Toolbar.

(* ===================================================================== *)
(** * Document settings of [src/App.tsx] and [src/components/Header.tsx] *)
(* ===================================================================== *)

Module Settings.

(** [Template] of [src/types.ts] *)
Inductive Template :=
  | Standard | Academic | Business | Typewriter | Modern | Elegant.

Inductive Orientation := portrait | landscape.

(** [PDFSettings] of [src/types.ts] *)
Record PDFSettings := mkPDFSettings {
  orientation : Orientation;
  margins : Z;
  textFont : string;
  mathFont : string;
  isFontOverridden : bool
}.

(** The part of [DocumentState] that the two handlers below read and
    write; the other fields are carried along by the spread
    [...prev]. *)
Record Doc := mkDoc {
  template : Template;
  pdfSettings : PDFSettings
}.

(** [templateDefaults]: text font and math font of a template. *)
Definition templateDefaults (t : Template) : string * string :=
  match t with
  | Standard => ("Noto Sans", "Noto Sans Math")
  | Academic => ("Noto Serif", "Noto Sans Math")
  | Business => ("Inter", "Noto Sans Math")
  | Typewriter => ("JetBrains Mono", "Roboto Mono")
  | Modern => ("Montserrat", "Noto Sans Math")
  | Elegant => ("Playfair Display", "Noto Serif")
  end.

(** The updater of [handleTemplateChange(newTemplate)] *)
Definition handleTemplateChange (newTemplate : Template) (prev : Doc) : Doc :=
  let ps := pdfSettings prev in
  let nextSettings :=
    if negb (isFontOverridden ps) then
      {| orientation := orientation ps; margins := margins ps;
         textFont := (templateDefaults newTemplate).1;
         mathFont := (templateDefaults newTemplate).2;
         isFontOverridden := isFontOverridden ps |}
    else ps in
  {| template := newTemplate; pdfSettings := nextSettings |}.

Inductive FontKind := text | math | both.

(** The updater of [handleFontChange(type, font)] *)
Definition handleFontChange (type : FontKind) (font : string) (prev : Doc)
    : Doc :=
  let ps := pdfSettings prev in
  let textFont' :=
    match type with text | both => font | math => textFont ps end in
  let mathFont' :=
    match type with math | both => font | text => mathFont ps end in
  {| template := template prev;
     pdfSettings :=
       {| orientation := orientation ps; margins := margins ps;
          textFont := textFont'; mathFont := mathFont';
          isFontOverridden := true |} |}.

(** The state of [useState<DocumentState>] at mount. *)
Definition initial : Doc :=
  {| template := Standard;
     pdfSettings := mkPDFSettings portrait 15 "Noto Sans" "Noto Sans Math" false |}.

Inductive Action :=
  | TemplateChange (t : Template)
  | FontChange (type : FontKind) (font : string).

Definition apply (d : Doc) (a : Action) : Doc :=
  match a with
  | TemplateChange t => handleTemplateChange t d
  | FontChange type font => handleFontChange type font d
  end.

Definition is_FontChange (a : Action) : bool :=
  match a with FontChange _ _ => true | TemplateChange _ => false end.

(** The margins field of the header: [parseInt(e.target.value) || 0],
    where [parsed] is the integer that [parseInt] reads, [None] for
    NaN. *)
Definition margins_input (parsed : option Z) : Z :=
  match parsed with
  | Some n => if (n =? 0)%Z then 0%Z else n
  | None => 0%Z
  end.

(** [const margin = doc.pdfSettings?.margins || 15] of
    [handleExportPDF]; [None] is a document without [pdfSettings]. *)
Definition export_margin (settings : option PDFSettings) : Z :=
  match settings with
  | Some ps => if (margins ps =? 0)%Z then 15%Z else margins ps
  | None => 15%Z
  end.

(** The header's [onChange] for the margins, composed with the
    [onPdfSettingsChange] of the application. *)
Definition set_margins (parsed : option Z) (prev : Doc) : Doc :=
  let ps := pdfSettings prev in
  {| template := template prev;
     pdfSettings :=
       {| orientation := orientation ps; margins := margins_input parsed;
          textFont := textFont ps; mathFont := mathFont ps;
          isFontOverridden := isFontOverridden ps |} |}.

End Settings.

(* ===================================================================== *)
(** * The line-number plugin [rehypeInjectLineNumber] *)
(* ===================================================================== *)

Module Hast.

(** [node.position.start] *)
Record Point := mkPoint { line : Z; column : Z }.

(** [node.position]; its [start] may be missing. *)
Record Position := mkPosition { start : option Point }.

(** A property value, as far as the plugin is concerned. *)
Inductive PropValue := PNumber (n : Z) | PString (s : string).

(** A node of the tree handed to the plugin.  [position],
    [properties] and [children] are [None] when the node has no such
    field. *)
Unset Elimination Schemes.
Inductive Node :=
  mkNode (type : string) (position : option Position)
         (properties : option (gmap string PropValue))
         (children : option (list Node)).
Set Elimination Schemes.

Definition type (n : Node) : string :=
  match n with mkNode t _ _ _ => t end.
Definition position (n : Node) : option Position :=
  match n with mkNode _ p _ _ => p end.
Definition properties (n : Node) : option (gmap string PropValue) :=
  match n with mkNode _ _ ps _ => ps end.
Definition children (n : Node) : option (list Node) :=
  match n with mkNode _ _ _ c => c end.

(** The line of [node.position.start], when both exist. *)
Definition start_line (n : Node) : option Z :=
  match position n with
  | Some pos => line <$> start pos
  | None => None
  end.

(** [visit], with the in-place updates returned as a new tree. *)
Fixpoint visit (node : Node) : Node :=
  match node with
  | mkNode type position properties children =>
      let properties' :=
        if bool_decide (type = "element") then
          match position with
          | Some pos =>
              match start pos with
              | Some st =>
                  Some (<["data-line" := PNumber (line st)]>
                          (default ∅ properties))
              | None => properties
              end
          | None => properties
          end
        else properties in
      let children' :=
        match children with
        | Some cs => Some (List.map visit cs)
        | None => None
        end in
      mkNode type position properties' children'
  end.

(** The transformer returned by [rehypeInjectLineNumber()]. *)
Definition rehypeInjectLineNumber (tree : Node) : Node := visit tree.

(** A node and all nodes below it, in document order. *)
Fixpoint subnodes (node : Node) : list Node :=
  node ::
  match children node with
  | Some cs => List.flat_map subnodes cs
  | None => []
  end.

(** The tree with every [data-line] property removed and a missing
    property object read as the empty one. *)
Fixpoint without_data_line (node : Node) : Node :=
  match node with
  | mkNode type position properties children =>
      mkNode type position
        (Some (delete "data-line" (default ∅ properties)))
        (match children with
         | Some cs => Some (List.map without_data_line cs)
         | None => None
         end)
  end.

(** The [data-line] property of a node. *)
Definition data_line (n : Node) : option PropValue :=
  match properties n with
  | Some ps => ps !! "data-line"
  | None => None
  end.

End Hast.

(* ===================================================================== *)
(** * Autosave of the document *)
(* ===================================================================== *)

Module Autosave.

Section WithDoc.

(** The document state; the effect only hands it to
    [JSON.stringify]. *)
Variable Doc : Type.

Inductive SaveStatus := saved | saving | unsaved.

(** The callback scheduled by the autosave effect: it closes over the
    [doc] of the render that ran the effect. *)
Record SaveTimer := mkSaveTimer {
  st_due : nat;
  st_doc : Doc
}.

Record State := mkState {
  doc : Doc;
  saveStatus : SaveStatus;
  saveTimeoutRef : option SaveTimer;   (* the live timer *)
  md2pdf_autosave : option Doc;        (* the stored text, as the document
                                          it is the JSON of *)
  clock : nat
}.

(** The effect [useEffect(..., [doc])], run after a render with a new
    [doc] (the cleanup of the previous run and the clearTimeout of this
    one both cancel the pending timer). *)
Definition autosave_effect (s : State) : State :=
  {| doc := doc s;
     saveStatus := saving;
     saveTimeoutRef := Some (mkSaveTimer (clock s + 1000) (doc s));
     md2pdf_autosave := md2pdf_autosave s;
     clock := clock s |}.

(** Any [setDoc] followed by the render and its effect. *)
Definition setDoc (d : Doc) (s : State) : State :=
  autosave_effect
    {| doc := d; saveStatus := saveStatus s;
       saveTimeoutRef := saveTimeoutRef s;
       md2pdf_autosave := md2pdf_autosave s; clock := clock s |}.

(** [ms] milliseconds pass; a due timer writes its document and shows
    "saved". *)
Definition elapse (ms : nat) (s : State) : State :=
  let now := clock s + ms in
  match saveTimeoutRef s with
  | Some t =>
      if bool_decide (st_due t <= now) then
        {| doc := doc s; saveStatus := saved; saveTimeoutRef := None;
           md2pdf_autosave := Some (st_doc t); clock := now |}
      else
        {| doc := doc s; saveStatus := saveStatus s;
           saveTimeoutRef := saveTimeoutRef s;
           md2pdf_autosave := md2pdf_autosave s; clock := now |}
  | None =>
      {| doc := doc s; saveStatus := saveStatus s;
         saveTimeoutRef := None;
         md2pdf_autosave := md2pdf_autosave s; clock := now |}
  end.

Inductive Event := SetDoc (d : Doc) | Elapse (ms : nat).

Definition step (s : State) (e : Event) : State :=
  match e with
  | SetDoc d => setDoc d s
  | Elapse ms => elapse ms s
  end.

(** The state after the first render and its effects, for the initial
    document [d] and the store content [stored]. *)
Definition mounted (d : Doc) (stored : option Doc) : State :=
  autosave_effect
    {| doc := d; saveStatus := saved; saveTimeoutRef := None;
       md2pdf_autosave := stored; clock := 0 |}.

Definition run (es : list Event) (s : State) : State := foldl step s es.

(** The indicator tells the truth: "saved" is shown only while the
    store holds the current document and no write is pending. *)
Definition indicator_truthful (s : State) : Prop :=
  saveStatus s = saved ->
  md2pdf_autosave s = Some (doc s) /\ saveTimeoutRef s = None.

(** A pending write is a write of the current document. *)
Definition timer_current (s : State) : Prop :=
  forall t, saveTimeoutRef s = Some t -> st_doc t = doc s.

(** What every event keeps. *)
Definition autosave_inv (s : State) : Prop :=
  indicator_truthful s /\ timer_current s /\ saveStatus s <> unsaved.

(** The state while a write of [d] is pending since time [t]. *)
Definition unsaved_since (d : Doc) (stored : option Doc) (t : nat) : State :=
  mkState d saving (Some (mkSaveTimer (t + 1000) d)) stored t.

(** A burst of [setDoc] calls, each [gap] milliseconds after the one
    before it. *)
Fixpoint burst (changes : list (nat * Doc)) : list Event :=
  match changes with
  | [] => []
  | (gap, d) :: rest => Elapse gap :: SetDoc d :: burst rest
  end.

(** The document of the last change of a burst that starts with [d0]. *)
Definition last_doc (d0 : Doc) (changes : list (nat * Doc)) : Doc :=
  List.last (snd <$> changes) d0.

End WithDoc.

Arguments mkSaveTimer {Doc}.
Arguments st_due {Doc}.
Arguments st_doc {Doc}.
Arguments mkState {Doc}.
Arguments doc {Doc}.
Arguments saveStatus {Doc}.
Arguments saveTimeoutRef {Doc}.
Arguments md2pdf_autosave {Doc}.
Arguments clock {Doc}.
Arguments autosave_effect {Doc}.
Arguments setDoc {Doc}.
Arguments elapse {Doc}.
Arguments SetDoc {Doc}.
Arguments Elapse {Doc}.
Arguments step {Doc}.
Arguments mounted {Doc}.
Arguments run {Doc}.
Arguments indicator_truthful {Doc}.
Arguments timer_current {Doc}.
Arguments autosave_inv {Doc}.
Arguments unsaved_since {Doc}.
Arguments burst {Doc}.
Arguments last_doc {Doc}.

End Autosave.

(* ===================================================================== *)
(** * The guards in front of the two synchronisers *)
(* ===================================================================== *)

Module View.

(** [ViewMode] of [src/types.ts] *)
Inductive ViewMode := editor | preview | split.

(** [onScroll={() => viewMode === 'split' && !isSyncActive && handleScroll(source)}] *)
Definition onScroll (src : Source) (viewMode : ViewMode) (isSyncActive : bool)
    (source : Scroll.PaneName) (editorRef previewRef : option Scroll.Pane)
    : option (Scroll.PaneName * Scroll.jsnum) :=
  match viewMode with
  | split =>
      if negb isSyncActive then
        Scroll.handleScroll src source editorRef previewRef
      else None
  | _ => None
  end.

(** The annotated elements come with lines that do not decrease in
    document order, as they do when every block starts at or after the
    blocks before it. *)
Definition lines_nondecreasing (elements : list Sync.Element) : Prop :=
  forall i j a b, i <= j ->
    elements !! i = Some a -> elements !! j = Some b ->
    (Sync.parseInt_data_line a <= Sync.parseInt_data_line b)%Z.

End View.

(* ===================================================================== *)
(** * Properties of the history manager *)
(* ===================================================================== *)

Section HistoryFacts.
Import History.
Variable src : Source.

(** ** The two state updaters of [updateHistory] *)

Lemma setHistory_updater_same h i c :
  h !! i = Some c -> setHistory_updater i c h = h.
Proof.
  intros Hc. unfold setHistory_updater.
  by rewrite bool_decide_eq_true_2.
Qed.

Lemma setHistory_updater_push h i c :
  h !! i <> Some c ->
  setHistory_updater i c h =
    if bool_decide (100 < length (take (i + 1) h ++ [c]))
    then drop 1 (take (i + 1) h ++ [c]) else take (i + 1) h ++ [c].
Proof.
  intros Hc. unfold setHistory_updater.
  by rewrite bool_decide_eq_false_2.
Qed.

Lemma setHistoryIndex_updater_same h c i :
  h !! i = Some c -> setHistoryIndex_updater src h c i = i.
Proof.
  intros Hc. destruct src; simpl; by rewrite bool_decide_eq_true_2.
Qed.

Lemma setHistoryIndex_updater_push h c i :
  h !! i <> Some c -> setHistoryIndex_updater src h c i = i + 1.
Proof.
  intros Hc. destruct src; simpl; rewrite bool_decide_eq_false_2 by done.
  - done.
  - case_bool_decide as Hlt; [|done].
    rewrite length_take. lia.
Qed.

(** ** Neighbouring snapshots *)

Lemma no_adjacent_dup_take l n :
  no_adjacent_dup l -> no_adjacent_dup (take n l).
Proof.
  intros Hl i x y Hx Hy.
  apply lookup_take_Some in Hx as [Hx _].
  apply lookup_take_Some in Hy as [Hy _].
  eauto.
Qed.

Lemma no_adjacent_dup_drop l n :
  no_adjacent_dup l -> no_adjacent_dup (drop n l).
Proof.
  intros Hl i x y Hx Hy.
  rewrite lookup_drop in Hx. rewrite lookup_drop in Hy.
  apply (Hl (n + i)); [done|].
  by replace (n + i + 1) with (n + (i + 1)) by lia.
Qed.

Lemma no_adjacent_dup_push h i c :
  i < length h -> h !! i <> Some c ->
  no_adjacent_dup h -> no_adjacent_dup (take (i + 1) h ++ [c]).
Proof.
  intros Hi Hc Hh j x y Hx Hy.
  assert (Hlen : length (take (i + 1) h) = i + 1)
    by (rewrite length_take; lia).
  apply lookup_snoc_Some in Hy as [[Hj Hy]|[Hj <-]].
  - rewrite lookup_app_l in Hx by lia.
    eapply (no_adjacent_dup_take h (i + 1)); eauto.
  - rewrite lookup_app_l in Hx by lia.
    apply lookup_take_Some in Hx as [Hx _].
    assert (j = i) as -> by lia. congruence.
Qed.

(** A commit whose closure is fresh (the handler of the current render)
    keeps neighbouring snapshots distinct as long as the index is in
    range. *)
Lemma setHistory_updater_no_adjacent_dup h i c :
  i < length h -> no_adjacent_dup h ->
  no_adjacent_dup (setHistory_updater i c h).
Proof.
  intros Hi Hh. unfold setHistory_updater.
  case_bool_decide as Hc; [done|]. simpl.
  case_bool_decide; [apply no_adjacent_dup_drop|];
    by apply no_adjacent_dup_push.
Qed.

(** ** The index invariant away from the cap *)

Lemma undo_index_in_range s :
  index_in_range s -> index_in_range (undo src s).
Proof.
  unfold index_in_range, undo. intros Hs.
  case_bool_decide; simpl; lia.
Qed.

Lemma redo_index_in_range s :
  index_in_range s -> index_in_range (redo src s).
Proof.
  unfold index_in_range, redo. intros Hs.
  case_bool_decide; simpl; lia.
Qed.

Lemma commit_below_cap_index_in_range s c :
  index_in_range s -> historyIndex s + 2 <= 100 ->
  let s' := handleContentChange src c true s in
  index_in_range s' /\ history s' !! historyIndex s' = Some c.
Proof.
  unfold index_in_range. intros Hs Hcap. simpl.
  destruct (decide (history s !! historyIndex s = Some c)) as [Hc|Hc].
  - rewrite setHistory_updater_same, setHistoryIndex_updater_same by done.
    split; [lia|done].
  - rewrite setHistory_updater_push, setHistoryIndex_updater_push by done.
    assert (Hlen : length (take (historyIndex s + 1) (history s)) = historyIndex s + 1)
      by (rewrite length_take; lia).
    rewrite bool_decide_eq_false_2 by (rewrite length_app, Hlen; simpl; lia).
    rewrite length_app, Hlen. simpl. split; [lia|].
    by apply list_lookup_middle.
Qed.

(** At the cap the oldest snapshot is dropped and the index is advanced
    all the same: it ends one past the last snapshot. *)
Lemma commit_at_cap_index_out_of_range s c :
  index_in_range s -> historyIndex s = 99 ->
  history s !! 99 <> Some c ->
  let s' := handleContentChange src c true s in
  length (history s') = 100 /\ historyIndex s' = 100 /\
  history s' !! 99 = Some c.
Proof.
  unfold index_in_range. intros Hs Hi Hc. simpl. rewrite Hi.
  rewrite setHistory_updater_push, setHistoryIndex_updater_push by done.
  assert (Hlen : length (take (99 + 1) (history s)) = 100)
    by (rewrite length_take; lia).
  rewrite bool_decide_eq_true_2 by (rewrite length_app, Hlen; simpl; lia).
  rewrite length_drop, length_app, Hlen. simpl.
  split; [done|]. split; [done|].
  rewrite lookup_drop. by apply list_lookup_middle.
Qed.

(** A commit by a fresh closure, below the cap. *)
Lemma updateHistory_fresh_below_cap s c s0 :
  index_in_range s -> no_adjacent_dup (history s) ->
  length (history s) < 100 ->
  history s0 = history s -> historyIndex s0 = historyIndex s ->
  debounceRef s0 = None ->
  well_formed (updateHistory src (history s) (historyIndex s) c s0).
Proof.
  unfold index_in_range. intros Hs Hno Hlen Hh Hi Ht.
  unfold well_formed, index_in_range, timer_fresh, updateHistory. simpl.
  rewrite Hh, Hi, Ht.
  split; [|split; [apply setHistory_updater_no_adjacent_dup; [lia|done]|done]].
  destruct (decide (history s !! historyIndex s = Some c)) as [Hc|Hc].
  - rewrite setHistory_updater_same, setHistoryIndex_updater_same by done. lia.
  - rewrite setHistory_updater_push, setHistoryIndex_updater_push by done.
    assert (Htake : length (take (historyIndex s + 1) (history s))
                    = historyIndex s + 1)
      by (rewrite length_take; lia).
    rewrite bool_decide_eq_false_2 by (rewrite length_app, Htake; simpl; lia).
    rewrite length_app, Htake. simpl. lia.
Qed.

End HistoryFacts.

(** In [src/unnamed/part_002] every event keeps the index in range, the
    neighbouring snapshots distinct and the pending callback fresh, as
    long as the history holds fewer than 100 snapshots when the event
    arrives: the cap is the only place where the invariants are lost. *)
Lemma Part002_step_well_formed s e :
  History.well_formed s -> length (History.history s) < 100 ->
  History.well_formed (History.step Part002 s e).
Proof.
  intros (Hrange & Hno & Hfresh) Hlen.
  destruct e as [c [|]| | |ms]; simpl.
  - unfold History.handleContentChange.
    by apply updateHistory_fresh_below_cap.
  - split; [done|]. split; [done|]. intros t [= <-]. done.
  - unfold History.undo. case_bool_decide; [|done].
    unfold History.index_in_range in Hrange.
    split; [unfold History.index_in_range; simpl; lia|].
    split; [done|]. intros t Ht. discriminate.
  - unfold History.redo. case_bool_decide; [|done].
    split; [unfold History.index_in_range; simpl; lia|].
    split; [done|]. intros t Ht. discriminate.
  - unfold History.elapse.
    destruct (History.debounceRef s) as [t|] eqn:Ht.
    + destruct (Hfresh t Ht) as [Hth Hti]. rewrite Hth, Hti.
      case_bool_decide.
      * by apply updateHistory_fresh_below_cap.
      * split; [done|]. split; [done|]. intros t' [= <-]. done.
    + split; [done|]. split; [done|]. intros t' Ht'. discriminate.
Qed.

(** ** Claims on the history manager *)

(** C1 (index invariant, eviction path).  The claim fails on the code:
    ninety-nine toolbar insertions fill the history to 100 snapshots
    with the index at 99, in range; the hundredth insertion appends,
    drops the oldest snapshot and still advances the index, which is
    then 100, the length of the sequence, and reads [undefined] instead
    of the snapshot just appended (that one sits at position 99).  Both
    versions of the component behave so. *)
Theorem C1_eviction_leaves_index_past_the_end (src : Source) :
  let before := History.run src (History.toolbar_inserts 99) (History.init "0") in
  let after := History.handleContentChange src "100" true before in
  History.index_in_range before /\
  length (History.history before) = 100 /\
  History.historyIndex before = 99 /\
  length (History.history after) = 100 /\
  History.historyIndex after = 100 /\
  History.history after !! History.historyIndex after = None /\
  History.history after !! 99 = Some "100" /\
  ~ History.index_in_range after.
Proof.
  unfold History.index_in_range.
  destruct src; vm_compute; repeat split; try lia; intros [_ H]; lia.
Qed.

(** C3 (undo cancels the pending commit).  The claim fails on
    [src/App.tsx], whose [undo] leaves the timer alone: after an
    insertion "a", a keystroke giving "ab" and an undo within the
    window, the timer is still live, and when it runs it appends "ab"
    to the history and moves the index off the undone snapshot. *)
Theorem C3_AppTsx_stale_timer_commits_after_undo :
  let s := History.run AppTsx
             [History.Change "a" true; History.Change "ab" false; History.Undo]
             (History.init "d") in
  let s' := History.elapse AppTsx 700 s in
  History.history s = ["d"; "a"] /\ History.historyIndex s = 0 /\
  History.content s = Some "d" /\
  is_Some (History.debounceRef s) /\
  History.history s' = ["d"; "a"; "ab"] /\ History.historyIndex s' = 1.
Proof. vm_compute. repeat split; eauto. Qed.

(** The sibling [undo] of [src/unnamed/part_002] clears the timer
    whenever it moves the index, after which no amount of waiting
    changes the history. *)
Lemma Part002_undo_cancels_pending_commit s ms :
  0 < History.historyIndex s ->
  let s' := History.elapse Part002 ms (History.undo Part002 s) in
  History.debounceRef (History.undo Part002 s) = None /\
  History.history s' = History.history s /\
  History.historyIndex s' = History.historyIndex s - 1 /\
  History.content s' = History.history s !! (History.historyIndex s - 1).
Proof.
  intros Hi. unfold History.undo, History.elapse.
  rewrite bool_decide_eq_true_2 by done. simpl. done.
Qed.

(** C4 (no two equal neighbours).  The claim fails on the code once the
    cap was hit.  After a hundred insertions the index is 100 and reads
    [undefined]; typing one letter and deleting it again within the
    window schedules a commit of the text "100", which is the newest
    snapshot; the guard compares it with [undefined], so it is appended
    a second time.  Both versions behave so. *)
Theorem C4_duplicate_snapshot_after_eviction (src : Source) :
  let s0 := History.run src (History.toolbar_inserts 100) (History.init "0") in
  let s := History.run src
             [History.Change "100x" false; History.Elapse 100;
              History.Change "100" false; History.Elapse 700] s0 in
  History.content s0 = Some "100" /\
  History.history s !! 98 = Some "100" /\
  History.history s !! 99 = Some "100" /\
  ~ History.no_adjacent_dup (History.history s).
Proof.
  intros s0 s.
  assert (H0 : History.content s0 = Some "100")
    by (destruct src; vm_compute; reflexivity).
  assert (H98 : History.history s !! 98 = Some "100")
    by (destruct src; vm_compute; reflexivity).
  assert (H99 : History.history s !! 99 = Some "100")
    by (destruct src; vm_compute; reflexivity).
  repeat split; try assumption.
  intros Hno. by apply (Hno 98 "100" "100").
Qed.

(** ** Debounce *)

Section Debounce.
Import History.
Variable src : Source.

Lemma handleContentChange_awaiting c s :
  handleContentChange src c false s = awaiting c s (clock s).
Proof. done. Qed.



Lemma last_cons_default {A} (l : list A) (x d : A) :
  List.last (x :: l) d = List.last l x.
Proof.
  revert x d. induction l as [|y l IH]; intros x d; [done|].
  change (List.last (x :: y :: l) d) with (List.last (y :: l) d).
  by rewrite (IH y d), (IH y x).
Qed.



End Debounce.




(** ** Undo followed by redo *)

(** C6 as the specification states it fails on the code: after an
    insertion "a", a keystroke that makes the document "ab" is not yet
    in the history (its commit is pending); undo shows "d", redo shows
    the snapshot "a", and the text "ab" that was current before the
    undo is not restored.  Both versions behave so. *)
Lemma C6_counterexample :
  let events := [History.Change "a" true; History.Change "ab" false] in
  let s1 := History.run AppTsx events (History.init "d") in
  let s2 := History.run Part002 events (History.init "d") in
  (History.Reachable AppTsx s1 /\ 0 < History.historyIndex s1 /\
   History.content s1 = Some "ab" /\
   History.content (History.redo AppTsx (History.undo AppTsx s1)) = Some "a" /\
   ~ History.undo_redo_restores AppTsx s1) /\
  (History.Reachable Part002 s2 /\ 0 < History.historyIndex s2 /\
   History.content s2 = Some "ab" /\
   History.content (History.redo Part002 (History.undo Part002 s2)) = Some "a" /\
   ~ History.undo_redo_restores Part002 s2).
Proof.
  split.
  - split; [by eexists _, _|]. split; [vm_compute; lia|].
    split; [done|]. split; [done|].
    intros [Hcontent _]. vm_compute in Hcontent. discriminate.
  - split; [by eexists _, _|]. split; [vm_compute; lia|].
    split; [done|]. split; [done|].
    intros [Hcontent _]. vm_compute in Hcontent. discriminate.
Qed.

(** C6, amended.  In a state whose index is in range and not 0, undo
    followed at once by redo returns the index to its value, leaves the
    snapshots alone, and makes the document the snapshot at that index;
    this is the text that was current before the undo whenever that
    text was the snapshot at the index (no uncommitted edit). *)
Theorem C6_undo_redo_returns_to_snapshot (src : Source) (s : History.AppState) :
  0 < History.historyIndex s < length (History.history s) ->
  let s' := History.redo src (History.undo src s) in
  History.historyIndex s' = History.historyIndex s /\
  History.history s' = History.history s /\
  History.content s' = History.history s !! History.historyIndex s /\
  (History.content s = History.history s !! History.historyIndex s ->
   History.undo_redo_restores src s).
Proof.
  intros [Hpos Hlt].
  assert (Hs' : let s' := History.redo src (History.undo src s) in
                History.historyIndex s' = History.historyIndex s /\
                History.history s' = History.history s /\
                History.content s' = History.history s !! History.historyIndex s).
  { unfold History.undo.
    rewrite (bool_decide_eq_true_2 (0 < History.historyIndex s)) by done.
    unfold History.redo. cbn [History.history History.historyIndex].
    rewrite bool_decide_eq_true_2 by lia. simpl.
    replace (History.historyIndex s - 1 + 1) with (History.historyIndex s) by lia.
    done. }
  destruct Hs' as (Hi & Hh & Hc).
  split; [done|]. split; [done|]. split; [done|].
  intros Hcur. unfold History.undo_redo_restores.
  split; [by rewrite Hc|]. split; [done|]. by rewrite Hh, Hi.
Qed.

(** C6 amended, at the state reached by two insertions. *)
Lemma C6_undo_redo_witness :
  let s := History.run AppTsx
             [History.Change "a" true; History.Change "ab" true]
             (History.init "d") in
  0 < History.historyIndex s < length (History.history s) /\
  History.content (History.redo AppTsx (History.undo AppTsx s)) = Some "ab".
Proof.
  assert (Hrange : 0 < 2 < 3) by lia.
  split; [exact Hrange|].
  destruct (C6_undo_redo_returns_to_snapshot AppTsx
              (History.run AppTsx
                 [History.Change "a" true; History.Change "ab" true]
                 (History.init "d")) Hrange) as (_ & _ & Hc & _).
  exact Hc.
Defined.

(* ===================================================================== *)
(** * Properties of the scroll synchroniser *)
(* ===================================================================== *)

Section ScrollFacts.
Import Scroll.

Lemma scrollable_Fin x :
  scrollable x = Fin (inject_Z (scrollHeight x) - inject_Z (clientHeight x)).
Proof. reflexivity. Qed.

Lemma heights_differ x :
  scrollHeight x <> clientHeight x ->
  Qeq_bool (inject_Z (scrollHeight x) - inject_Z (clientHeight x)) 0 = false.
Proof.
  intros Hne. destruct (Qeq_bool _ 0) eqn:Heq; [|reflexivity].
  apply Qeq_bool_eq in Heq. exfalso. apply Hne.
  apply (proj1 (inject_Z_injective _ _)).
  rewrite <- (Qplus_0_l (inject_Z (clientHeight x))), <- Heq. ring.
Qed.

Lemma heights_equal x :
  scrollHeight x = clientHeight x ->
  Qeq_bool (inject_Z (scrollHeight x) - inject_Z (clientHeight x)) 0 = true.
Proof. intros ->. apply Qeq_eq_bool. ring. Qed.

(** With room to scroll the ratio is the finite quotient. *)
Lemma percentage_scrollable x :
  scrollHeight x <> clientHeight x ->
  percentage x =
    Fin (scrollTop x / (inject_Z (scrollHeight x) - inject_Z (clientHeight x))).
Proof.
  intros Hne. unfold percentage. rewrite scrollable_Fin. simpl.
  by rewrite heights_differ.
Qed.

(** Without room to scroll the ratio is 0/0. *)
Lemma percentage_fits x :
  scrollHeight x = clientHeight x -> (scrollTop x == 0)%Q ->
  percentage x = NaN.
Proof.
  intros Heq Htop. unfold percentage. rewrite scrollable_Fin. simpl.
  rewrite heights_equal by done. by rewrite (Qeq_eq_bool _ _ Htop).
Qed.

(** Whatever a branch of [handleScroll] assigns, with room to scroll,
    is the finite product. *)
Lemma sync_scrollable src from to v :
  scrollHeight from <> clientHeight from ->
  sync src from to = Some v ->
  v = Fin (scrollTop from
             / (inject_Z (scrollHeight from) - inject_Z (clientHeight from))
           * (inject_Z (scrollHeight to) - inject_Z (clientHeight to))).
Proof.
  intros Hne. unfold sync.
  rewrite (percentage_scrollable from Hne), scrollable_Fin.
  cbn [jmul]. destruct src.
  - intros [= <-]. reflexivity.
  - destruct (jgt _ _); [|discriminate]. intros [= <-]. reflexivity.
Qed.

End ScrollFacts.

(** C2 as the specification states it fails on the code, which has no
    guard: for an editor pane whose content fits (scrollTop 0,
    scrollHeight = clientHeight = 500) the ratio is 0/0 = NaN, not 0,
    and [src/App.tsx] assigns NaN to the preview's scrollTop. *)
Lemma C2_counterexample :
  let e := Scroll.mkPane 0 500 500 in
  let p := Scroll.mkPane 0 900 400 in
  Scroll.scrollHeight e = Scroll.clientHeight e /\
  Scroll.percentage e = Scroll.NaN /\
  Scroll.handleScroll AppTsx Scroll.editor (Some e) (Some p)
    = Some (Scroll.preview, Scroll.NaN) /\
  ~ Scroll.ratio_guarded e.
Proof.
  repeat split; try reflexivity.
  intros [Hfin _]. vm_compute in Hfin. discriminate.
Qed.

(** C2, amended.  When the source pane has room to scroll
    (scrollHeight differs from clientHeight) the ratio is the finite
    quotient scrollTop / (scrollHeight - clientHeight) and whatever is
    assigned to the other pane's scrollTop is the finite product of the
    ratio and that pane's scrollHeight - clientHeight.  When the
    content of the source pane fits (heights equal, scrollTop 0) the
    ratio is NaN; [src/App.tsx] assigns NaN to the other pane, and
    [src/unnamed/part_002] assigns nothing, its threshold comparison
    being false on NaN. *)
Theorem C2_ratio_finite_when_scrollable
    (src : Source) (source : Scroll.PaneName) (e p : Scroll.Pane) :
  let from := Scroll.pane_of source e p in
  let to := Scroll.pane_of (Scroll.other source) e p in
  let range := fun x : Scroll.Pane =>
    (inject_Z (Scroll.scrollHeight x) - inject_Z (Scroll.clientHeight x))%Q in
  (Scroll.scrollHeight from <> Scroll.clientHeight from ->
   Scroll.percentage from = Scroll.Fin (Scroll.scrollTop from / range from) /\
   forall w, Scroll.handleScroll src source (Some e) (Some p) = Some w ->
     w = (Scroll.other source,
          Scroll.Fin (Scroll.scrollTop from / range from * range to))) /\
  (Scroll.scrollHeight from = Scroll.clientHeight from ->
   (Scroll.scrollTop from == 0)%Q ->
   Scroll.percentage from = Scroll.NaN /\
   Scroll.handleScroll AppTsx source (Some e) (Some p)
     = Some (Scroll.other source, Scroll.NaN) /\
   Scroll.handleScroll Part002 source (Some e) (Some p) = None).
Proof.
  intros from to range. split.
  - intros Hne. pose proof (percentage_scrollable from Hne) as Hpct.
    split; [exact Hpct|]. intros w Hw.
    assert (Hsync : Scroll.sync src from to = Some w.2 /\ w.1 = Scroll.other source).
    { subst from to. destruct source; simpl in *;
        apply fmap_Some in Hw as (v & Hv & ->); done. }
    destruct Hsync as [Hsync Hname]. destruct w as [name v]. simpl in *.
    subst name. f_equal. by apply (sync_scrollable src from to).
  - intros Heq Htop. pose proof (percentage_fits from Heq Htop) as Hpct.
    split; [exact Hpct|].
    assert (Hsync : Scroll.sync AppTsx from to = Some Scroll.NaN /\
                    Scroll.sync Part002 from to = None).
    { unfold Scroll.sync. by rewrite Hpct, scrollable_Fin. }
    destruct Hsync as [HA HP].
    subst from to. destruct source; unfold Scroll.handleScroll;
      cbn [Scroll.pane_of Scroll.other] in *; by rewrite HA, HP.
Qed.

(** C2 amended, at a scrollable editor pane (scrolled 100 of 500) and
    at one whose content fits. *)
Lemma C2_ratio_witness :
  Scroll.percentage (Scroll.mkPane 100 1000 500)
    = Scroll.Fin (100 / (inject_Z 1000 - inject_Z 500)) /\
  Scroll.handleScroll Part002 Scroll.editor
    (Some (Scroll.mkPane 0 500 500)) (Some (Scroll.mkPane 0 900 400)) = None.
Proof.
  split.
  - assert (Hne : (1000 <> 500)%Z) by lia.
    exact (proj1 (proj1 (C2_ratio_finite_when_scrollable AppTsx Scroll.editor
                           (Scroll.mkPane 100 1000 500) (Scroll.mkPane 0 900 400))
                        Hne)).
  - assert (Heq : (500 = 500)%Z) by reflexivity.
    assert (Htop : (0 == 0)%Q) by reflexivity.
    exact (proj2 (proj2 (proj2 (C2_ratio_finite_when_scrollable AppTsx Scroll.editor
                           (Scroll.mkPane 0 500 500) (Scroll.mkPane 0 900 400))
                        Heq Htop))).
Defined.

(* ===================================================================== *)
(** * Properties of the position mapper *)
(* ===================================================================== *)

Section SyncFacts.
Import Sync.

Lemma split_nonempty sep s : JS.split sep s <> [].
Proof.
  destruct s as [|a r]; simpl; [done|].
  case_bool_decide; [done|]. by destruct (JS.split sep r).
Qed.

(** [split] yields one piece more than there are separators. *)
Lemma length_split sep s :
  length (JS.split sep s) = JS.count sep s + 1.
Proof.
  induction s as [|a r IH]; simpl; [done|].
  case_bool_decide; simpl; [by rewrite IH|].
  pose proof (split_nonempty sep r) as Hne.
  destruct (JS.split sep r); [done|]. exact IH.
Qed.

Lemma find_head_filter {A} (f : A -> bool) l :
  List.find f l = head (List.filter f l).
Proof.
  induction l as [|x l IH]; simpl; [done|]. by destruct (f x).
Qed.

Lemma find_snoc {A} (f : A -> bool) l x :
  List.find f (l ++ [x]) =
    match List.find f l with
    | Some y => Some y
    | None => if f x then Some x else None
    end.
Proof.
  induction l as [|y l IH]; simpl; [done|]. by destruct (f y).
Qed.

Lemma find_reverse_last_filter {A} (f : A -> bool) l :
  List.find f (reverse l) = last (List.filter f l).
Proof.
  induction l as [|x l IH] using rev_ind; [done|].
  rewrite reverse_app, List.filter_app. simpl.
  destruct (f x); simpl.
  - by rewrite last_snoc.
  - by rewrite app_nil_r.
Qed.

Lemma findTarget_spec elements clicked :
  findTarget elements clicked = spec_resolve elements clicked.
Proof.
  unfold findTarget, spec_resolve.
  by rewrite find_head_filter, find_reverse_last_filter.
Qed.

Lemma filter_unannotated ids :
  querySelectorAll_data_line ((fun i => mkElement i None) <$> ids) = [].
Proof. induction ids as [|i ids IH]; simpl; done. Qed.

Lemma closest_data_line_nearest pre target post :
  Forall (fun el => data_line el = None) pre ->
  is_Some (data_line target) ->
  closest_data_line (pre ++ target :: post) = Some target.
Proof.
  intros Hpre [line Hline]. unfold closest_data_line.
  induction Hpre as [|el pre Hel Hpre IH]; simpl.
  - unfold has_data_line. by rewrite Hline.
  - unfold has_data_line at 1. by rewrite Hel.
Qed.

End SyncFacts.

(** C7 (editor click).  The clicked line is the number of line feeds
    before the caret plus one (3 for the caret at index 12 of the
    three-line text); with sync mode active the click resolves to the
    first annotated element, in document order, whose line is not below
    the clicked line, else to the last one whose line is not above it;
    for annotations 2, 5, 9 the clicked lines 6 and 12 both resolve to
    the element annotated 9; with no annotated element the click does
    nothing. *)
Theorem C7_editor_click_resolves_line :
  (forall value caret,
     Sync.lineNumber value caret
       = JS.count JS.LF (JS.substring value 0 caret) + 1) /\
  Sync.lineNumber Sync.three_lines 12 = 3 /\
  (forall value caret descendants,
     Sync.handleEditorClick true value caret (Some descendants)
       = Sync.spec_resolve (Sync.querySelectorAll_data_line descendants)
           (Z.of_nat (Sync.lineNumber value caret))) /\
  Sync.lineNumber (Sync.blank_lines 11) 5 = 6 /\
  Sync.handleEditorClick true (Sync.blank_lines 11) 5
    (Some (Sync.annotated [2; 5; 9]%Z)) = Some (Sync.mkElement 2 (Some 9%Z)) /\
  Sync.lineNumber (Sync.blank_lines 11) 11 = 12 /\
  Sync.handleEditorClick true (Sync.blank_lines 11) 11
    (Some (Sync.annotated [2; 5; 9]%Z)) = Some (Sync.mkElement 2 (Some 9%Z)) /\
  (forall value caret ids,
     Sync.handleEditorClick true value caret
       (Some ((fun i => Sync.mkElement i None) <$> ids)) = None) /\
  (forall value caret, Sync.handleEditorClick true value caret None = None).
Proof.
  split; [intros; apply length_split|].
  split; [reflexivity|].
  split; [intros; apply findTarget_spec|].
  split; [reflexivity|]. split; [reflexivity|].
  split; [reflexivity|]. split; [reflexivity|].
  split; [|reflexivity].
  intros value caret ids. unfold Sync.handleEditorClick. simpl.
  by rewrite filter_unannotated.
Qed.

(** C8 (preview click).  With sync mode active and both editor refs
    set, a click on an element whose nearest annotated ancestor-or-self
    carries line [line] scrolls the editor pane to
    (line - 1) * lineHeight - 100, where lineHeight is the table entry
    of the font size: 20, 24, 28, 32 for Small, Medium, Large, Extra
    Large. *)
Theorem C8_preview_click_scroll_offset
    (pre post : list Sync.Element) (target : Sync.Element) (line : Z)
    (fontSize : Sync.FontSize) :
  Forall (fun el => Sync.data_line el = None) pre ->
  Sync.data_line target = Some line ->
  Sync.handlePreviewClick true (pre ++ target :: post) true true fontSize
    = Some ((line - 1) * Sync.lineHeightMap fontSize - 100)%Z /\
  Sync.lineHeightMap Sync.Small = 20%Z /\
  Sync.lineHeightMap Sync.Medium = 24%Z /\
  Sync.lineHeightMap Sync.Large = 28%Z /\
  Sync.lineHeightMap Sync.ExtraLarge = 32%Z.
Proof.
  intros Hpre Hline. split; [|done].
  unfold Sync.handlePreviewClick. simpl.
  rewrite closest_data_line_nearest by (done || by eexists).
  unfold Sync.parseInt_data_line. by rewrite Hline.
Qed.

(** C8 at a click on an unannotated element inside a block of line 7,
    font size Large. *)
Lemma C8_preview_click_witness :
  Forall (fun el => Sync.data_line el = None) [Sync.mkElement 3 None] /\
  Sync.handlePreviewClick true
    [Sync.mkElement 3 None; Sync.mkElement 2 (Some 7%Z);
     Sync.mkElement 1 (Some 5%Z)] true true Sync.Large = Some 68%Z.
Proof.
  assert (Hpre : Forall (fun el => Sync.data_line el = None)
                   [Sync.mkElement 3 None]) by (repeat constructor).
  split; [exact Hpre|].
  exact (proj1 (C8_preview_click_scroll_offset [Sync.mkElement 3 None]
                  [Sync.mkElement 1 (Some 5%Z)] (Sync.mkElement 2 (Some 7%Z))
                  7%Z Sync.Large Hpre eq_refl)).
Defined.

(* ===================================================================== *)
(** * Properties of JS strings and of [insertMarkdown] *)
(* ===================================================================== *)

Section StringFacts.

Lemma str_app_cons c (a b : string) : String c a +:+ b = String c (a +:+ b).
Proof. reflexivity. Qed.

Lemma str_length_app (a b : string) :
  String.length (a +:+ b) = String.length a + String.length b.
Proof.
  induction a as [|c a IH]; [done|].
  rewrite str_app_cons. simpl. by rewrite IH.
Qed.

Lemma str_take_drop n s : JS.str_take n s +:+ JS.str_drop n s = s.
Proof.
  revert s. induction n as [|n IH]; intros [|c s]; simpl; try done.
  by rewrite str_app_cons, IH.
Qed.

Lemma str_length_take n s :
  n <= String.length s -> String.length (JS.str_take n s) = n.
Proof.
  revert s. induction n as [|n IH]; intros [|c s]; simpl; try done; try lia.
  intros Hn. rewrite IH; lia.
Qed.

Lemma str_length_drop n s :
  String.length (JS.str_drop n s) = String.length s - n.
Proof.
  revert s. induction n as [|n IH]; intros [|c s]; simpl; try done.
Qed.

Lemma str_take_all n s : String.length s <= n -> JS.str_take n s = s.
Proof.
  revert s. induction n as [|n IH]; intros [|c s]; simpl; try done; try lia.
  intros Hn. rewrite IH; [done|lia].
Qed.

Lemma str_drop_drop n m s :
  JS.str_drop m (JS.str_drop n s) = JS.str_drop (n + m) s.
Proof.
  revert s. induction n as [|n IH]; intros s; simpl; [done|].
  destruct s as [|c s]; simpl; [by destruct m|]. apply IH.
Qed.

(** The three substrings that the handlers cut at a selection. *)
Lemma substring_prefix s a :
  a <= String.length s -> JS.substring s 0 a = JS.str_take a s.
Proof.
  intros Ha. unfold JS.substring.
  rewrite !Nat.min_0_l, Nat.max_0_l, Nat.sub_0_r.
  by rewrite (Nat.min_l a) by done.
Qed.

Lemma substring_middle s a b :
  a <= b <= String.length s ->
  JS.substring s a b = JS.str_take (b - a) (JS.str_drop a s).
Proof.
  intros [Hab Hb]. unfold JS.substring.
  rewrite (Nat.min_l a), (Nat.min_l b) by lia.
  by rewrite (Nat.min_l a b), (Nat.max_r a b) by lia.
Qed.

Lemma substring_suffix s b :
  b <= String.length s -> JS.substring_from s b = JS.str_drop b s.
Proof.
  intros Hb. unfold JS.substring_from, JS.substring.
  rewrite (Nat.min_l b), Nat.min_id by lia.
  rewrite (Nat.min_l b), (Nat.max_r b) by lia.
  apply str_take_all. rewrite str_length_drop. lia.
Qed.

(** A text is its prefix, its selection and its suffix. *)
Lemma substring_partition s a b :
  a <= b <= String.length s ->
  s = JS.substring s 0 a +:+ JS.substring s a b +:+ JS.substring_from s b.
Proof.
  intros [Hab Hb].
  rewrite substring_prefix, substring_middle, substring_suffix by lia.
  replace (JS.str_drop b s) with (JS.str_drop (b - a) (JS.str_drop a s))
    by (rewrite str_drop_drop; f_equal; lia).
  by rewrite !str_take_drop.
Qed.

End StringFacts.

Section MarkdownFacts.
Import Markdown.

(** The cursor offset never points past the insertion. *)
Lemma cursorOffset_within_insertion type selected :
  (insertion_of type selected).2 <= len (insertion_of type selected).1.
Proof.
  unfold len.
  destruct type; unfold insertion_of, JS.or_else, len;
    destruct (JS.truthy selected);
    cbn [fst snd]; rewrite ?str_length_app; simpl; lia.
Qed.

End MarkdownFacts.

(** C10 (frame of [insertMarkdown]).  For every insert type and every
    selection 0 <= selectionStart <= selectionEnd <= text.length, the
    returned text is the prefix before the selection, an insertion
    string, and the suffix after the selection, the same prefix and
    suffix that surround the selection in the input; the returned
    cursor lies between the start of the insertion and its end, hence
    within the returned text. *)
Theorem C10_insertMarkdown_frame
    (text : string) (type : Markdown.InsertType)
    (selectionStart selectionEnd : nat) :
  0 <= selectionStart -> selectionStart <= selectionEnd ->
  selectionEnd <= String.length text ->
  let r := Markdown.insertMarkdown text type selectionStart selectionEnd in
  let before := JS.substring text 0 selectionStart in
  let selected := JS.substring text selectionStart selectionEnd in
  let after := JS.substring_from text selectionEnd in
  exists insertion,
    text = before +:+ selected +:+ after /\
    Markdown.text r = before +:+ insertion +:+ after /\
    String.length before = selectionStart /\
    0 <= Markdown.newCursor r <= String.length (Markdown.text r) /\
    selectionStart <= Markdown.newCursor r
      <= selectionStart + String.length insertion.
Proof.
  intros _ Hse Hlen r before selected after.
  exists (Markdown.insertion_of type selected).1.
  pose proof (cursorOffset_within_insertion type selected) as Hoff.
  assert (Hbefore : String.length before = selectionStart).
  { subst before. rewrite substring_prefix by lia.
    apply str_length_take. lia. }
  assert (Hr : r = Markdown.mkInserted
                 (before +:+ (Markdown.insertion_of type selected).1 +:+ after)
                 (selectionStart + (Markdown.insertion_of type selected).2)).
  { subst r. unfold Markdown.insertMarkdown. fold before selected after.
    by destruct (Markdown.insertion_of type selected). }
  split; [by apply substring_partition|].
  rewrite Hr. cbn [Markdown.text Markdown.newCursor].
  split; [done|]. split; [done|].
  rewrite !str_length_app, Hbefore. unfold Markdown.len in Hoff. lia.
Qed.

(** C10 at the word "world" of "hello world", made bold. *)
Lemma C10_insertMarkdown_witness :
  0 <= 6 /\ 6 <= 11 /\ 11 <= String.length "hello world" /\
  exists insertion,
    Markdown.text (Markdown.insertMarkdown "hello world" Markdown.bold 6 11)
      = "hello " +:+ insertion +:+ "" /\
    6 <= Markdown.newCursor (Markdown.insertMarkdown "hello world" Markdown.bold 6 11)
      <= 6 + String.length insertion.
Proof.
  assert (H0 : 0 <= 6) by lia.
  assert (H1 : 6 <= 11) by lia.
  assert (H2 : 11 <= String.length "hello world") by (simpl; lia).
  split; [exact H0|]. split; [exact H1|]. split; [exact H2|].
  destruct (C10_insertMarkdown_frame "hello world" Markdown.bold 6 11 H0 H1 H2)
    as (insertion & _ & Htext & _ & _ & Hcursor).
  exists insertion. split; [exact Htext|exact Hcursor].
Defined.

(* ===================================================================== *)
(** * Properties of preset saving *)
(* ===================================================================== *)

Section TrimFacts.

Lemma all_white_space_trimStart s :
  JS.all_white_space (JS.trimStart s) = JS.all_white_space s.
Proof.
  induction s as [|a r IH]; [done|]. simpl.
  destruct (JS.is_white_space a) eqn:Ha; simpl; [done|]. by rewrite Ha.
Qed.

Lemma trimStart_empty s :
  JS.trimStart s = "" <-> JS.all_white_space s = true.
Proof.
  induction s as [|a r IH]; [done|]. simpl.
  destruct (JS.is_white_space a); simpl; [done|]. split; discriminate.
Qed.

Lemma all_white_space_rev_app s1 s2 :
  JS.all_white_space (String.rev_app s1 s2)
    = JS.all_white_space s1 && JS.all_white_space s2.
Proof.
  revert s2. induction s1 as [|a r IH]; intros s2; [done|]. simpl.
  rewrite IH. simpl.
  destruct (JS.is_white_space a), (JS.all_white_space r); done.
Qed.

Lemma rev_app_empty s1 s2 : String.rev_app s1 s2 = "" -> s1 = "" /\ s2 = "".
Proof.
  revert s2. induction s1 as [|a r IH]; intros s2; simpl; [done|].
  intros H. apply IH in H as [_ H]. discriminate.
Qed.

(** [trim] leaves the empty string exactly when every character is
    white space. *)
Lemma truthy_trim s :
  JS.truthy (JS.trim s) = negb (JS.all_white_space s).
Proof.
  unfold JS.truthy, JS.trim, JS.trimEnd.
  destruct (JS.all_white_space s) eqn:Hs; simpl.
  - apply trimStart_empty in Hs. by rewrite Hs.
  - rewrite bool_decide_eq_false_2; [done|]. intros Hempty.
    apply rev_app_empty in Hempty as [Hempty _].
    apply trimStart_empty in Hempty.
    unfold String.rev in Hempty.
    rewrite all_white_space_rev_app, all_white_space_trimStart, Hs in Hempty.
    discriminate.
Qed.

End TrimFacts.

Section PresetFacts.
Import Presets.

(** The decimal rendering of a number does not start with the letter d. *)
Lemma pretty_N_go_ne_d x s s' : s <> "d" +:+ s' -> pretty_N_go x s <> "d" +:+ s'.
Proof.
  revert s. induction (N.lt_wf_0 x) as [x _ IH]; intros s Hs.
  assert (x = 0 \/ 0 < x)%N as [->|Hx] by lia.
  - by rewrite pretty_N_go_0.
  - rewrite pretty_N_go_step by done. apply IH.
    { by apply N.div_lt. }
    unfold pretty_N_char. by repeat case_match.
Qed.

Lemma pretty_N_ne_d (x : N) s' : pretty x <> "d" +:+ s'.
Proof.
  unfold pretty, pretty_N. case_decide; [done|].
  by apply pretty_N_go_ne_d.
Qed.

(** No timestamp collides with the id of a default preset. *)
Lemma pretty_N_not_default_id (x : N) q :
  q ∈ DEFAULT_PRESETS -> id q <> pretty x.
Proof.
  intros Hq Heq. unfold DEFAULT_PRESETS in Hq.
  repeat (apply elem_of_cons in Hq as [->|Hq];
          [simpl in Heq; symmetry in Heq; by apply pretty_N_ne_d in Heq|]).
  by apply elem_of_nil in Hq.
Qed.

Lemma handleSavePreset_rejects textarea doc_content now name presets :
  JS.all_white_space
    (JS.substring doc_content (selectionStart textarea) (selectionEnd textarea))
    = true ->
  handleSavePreset (Some textarea) doc_content now name presets = (presets, true).
Proof.
  intros Hws. unfold handleSavePreset. by rewrite truthy_trim, Hws.
Qed.

Lemma handleSavePreset_appends textarea doc_content now name presets :
  JS.all_white_space
    (JS.substring doc_content (selectionStart textarea) (selectionEnd textarea))
    = false ->
  handleSavePreset (Some textarea) doc_content now name presets
    = (presets ++ [mkPreset (pretty now) name
                     (JS.substring doc_content (selectionStart textarea)
                        (selectionEnd textarea))], false).
Proof.
  intros Hws. unfold handleSavePreset. by rewrite truthy_trim, Hws.
Qed.

(** A collection that is not empty survives a reload. *)
Lemma reload_persist presets (ls : localStorage) :
  presets <> [] -> (reload (persist presets ls)).1 = presets.
Proof.
  intros Hne. unfold reload, load, persist. simpl.
  rewrite lookup_insert_eq.
  rewrite bool_decide_eq_true_2; [done|].
  destruct presets; [done|simpl; lia].
Qed.

(** The stub of [src/App.tsx] saves nothing. *)
Lemma AppTsx_onSavePreset_saves_nothing textareaRef doc_content now name presets :
  onSavePreset AppTsx textareaRef doc_content now name presets = (presets, false).
Proof. reflexivity. Qed.

End PresetFacts.

(** C9 as the specification states it fails on the code in the clause
    on the id: the id is the clock reading, so saving "**bold**" as "b"
    at clock reading 1700000000000 into a collection that holds a
    preset saved at that same reading gives two presets with one id. *)
Lemma C9_counterexample :
  let presets := [Presets.mkPreset "1700000000000" "a" "x"] in
  let result := Presets.handleSavePreset (Some (Presets.mkTextarea 0 8))
                  "**bold**" 1700000000000%N "b" presets in
  result = ([Presets.mkPreset "1700000000000" "a" "x";
             Presets.mkPreset "1700000000000" "b" "**bold**"], false) /\
  ~ Presets.saved_id_is_new presets result.1.
Proof.
  split; [by vm_compute|].
  intros (p & Hp & Hnew). vm_compute in Hp.
  injection Hp as <-. apply Hnew. vm_compute. left.
Qed.

(** C9, amended.  [handleSavePreset] rejects a selection that is empty
    or all white space and leaves the collection as it is; for any
    other selection it appends exactly one preset, whose content is the
    selected text and whose id is the decimal rendering of the clock
    reading; that id differs from the id of every default preset and of
    every preset whose id renders another clock reading; the collection
    written to the store is the one a reload reads back. *)
Theorem C9_handleSavePreset
    (textarea : Presets.Textarea) (doc_content : string) (now : N)
    (name : string) (presets : list Presets.Preset)
    (ls : gmap string Presets.Stored) :
  let selectedText :=
    JS.substring doc_content (Presets.selectionStart textarea)
      (Presets.selectionEnd textarea) in
  let result :=
    Presets.handleSavePreset (Some textarea) doc_content now name presets in
  let newPreset := Presets.mkPreset (pretty now) name selectedText in
  (JS.all_white_space selectedText = true -> result = (presets, true)) /\
  (JS.all_white_space selectedText = false ->
   result = (presets ++ [newPreset], false) /\
   (forall q, q ∈ presets ->
      q ∈ Presets.DEFAULT_PRESETS \/
        (exists t : N, t <> now /\ Presets.id q = pretty t) ->
      Presets.id q <> Presets.id newPreset) /\
   (Presets.reload (Presets.persist result.1 ls)).1 = result.1).
Proof.
  intros selectedText result newPreset. split.
  - apply handleSavePreset_rejects.
  - intros Hws.
    assert (Hres : result = (presets ++ [newPreset], false))
      by (by apply handleSavePreset_appends).
    split; [exact Hres|]. split.
    + intros q _ [Hdefault|(t & Ht & Hid)]; simpl.
      * by apply pretty_N_not_default_id.
      * rewrite Hid. intros Heq. by apply (inj pretty) in Heq.
    + rewrite Hres. simpl. apply reload_persist.
      by destruct presets.
Qed.

(** C9 amended, at the selection "**bold**" saved as "b" into the
    default presets, and at a selection of one space. *)
Lemma C9_handleSavePreset_witness :
  JS.all_white_space (JS.substring "**bold** x" 8 9) = true /\
  JS.all_white_space (JS.substring "**bold** x" 0 8) = false /\
  Presets.handleSavePreset (Some (Presets.mkTextarea 8 9)) "**bold** x"
    1700000000000%N "b" Presets.DEFAULT_PRESETS
    = (Presets.DEFAULT_PRESETS, true) /\
  Presets.handleSavePreset (Some (Presets.mkTextarea 0 8)) "**bold** x"
    1700000000000%N "b" Presets.DEFAULT_PRESETS
    = (Presets.DEFAULT_PRESETS
         ++ [Presets.mkPreset "1700000000000" "b" "**bold**"], false).
Proof.
  assert (Hspace : JS.all_white_space (JS.substring "**bold** x" 8 9) = true)
    by reflexivity.
  assert (Hbold : JS.all_white_space (JS.substring "**bold** x" 0 8) = false)
    by reflexivity.
  split; [exact Hspace|]. split; [exact Hbold|]. split.
  - exact (proj1 (C9_handleSavePreset (Presets.mkTextarea 8 9) "**bold** x"
                    1700000000000%N "b" Presets.DEFAULT_PRESETS ∅) Hspace).
  - destruct (proj2 (C9_handleSavePreset (Presets.mkTextarea 0 8) "**bold** x"
                       1700000000000%N "b" Presets.DEFAULT_PRESETS ∅) Hbold)
      as [Hres _].
    exact Hres.
Defined.

(* ===================================================================== *)
(** * Further properties of the history manager *)
(* ===================================================================== *)

Section HistoryMore.
Import History.
Variable src : Source.

Lemma run_snoc es e s : run src (es ++ [e]) s = step src (run src es s) e.
Proof. unfold run. by rewrite foldl_snoc. Qed.

(** A property kept by every event holds after every run. *)
Lemma run_invariant (P : AppState -> Prop) :
  (forall s e, P s -> P (step src s e)) ->
  forall es s, P s -> P (run src es s).
Proof.
  intros Hstep es. induction es as [|e es IH] using rev_ind; intros s Hs.
  - done.
  - rewrite run_snoc. by apply Hstep, IH.
Qed.

Lemma length_setHistory_updater i c h :
  length (setHistory_updater i c h) <= length h + 1 /\
  (1 <= length h <= 100 -> 1 <= length (setHistory_updater i c h) <= 100).
Proof.
  unfold setHistory_updater.
  case_bool_decide; [lia|]. simpl.
  assert (Htake : length (take (i + 1) h) <= length h)
    by (rewrite length_take; lia).
  case_bool_decide as Hcap;
    rewrite ?length_drop, length_app in *; simpl in *; lia.
Qed.

Lemma length_history_step s e :
  length (history (step src s e)) <= length (history s) + 1 /\
  (1 <= length (history s) <= 100 ->
   1 <= length (history (step src s e)) <= 100).
Proof.
  destruct e as [c [|]| | |ms]; simpl.
  - apply length_setHistory_updater.
  - lia.
  - unfold undo. case_bool_decide; simpl; lia.
  - unfold redo. case_bool_decide; simpl; lia.
  - unfold elapse. destruct (debounceRef s) as [t|]; [|simpl; lia].
    case_bool_decide; [|simpl; lia]. simpl. apply length_setHistory_updater.
Qed.

End HistoryMore.

(** X1.  In both versions the history never holds more than 100
    snapshots and never fewer than one, whatever the user does after
    mount: insertions, keystrokes, undo, redo and timers that fire
    late. *)
Theorem history_length_bounded (src : Source) (d : string)
    (es : list History.Event) :
  1 <= length (History.history (History.run src es (History.init d))) <= 100.
Proof.
  apply (run_invariant src
           (fun s => 1 <= length (History.history s) <= 100)).
  - intros s e Hs. by apply length_history_step.
  - simpl. lia.
Qed.

(** What a commit of new content does below the cap. *)
Lemma commit_new_content
    (src : Source) (s : History.AppState) (c old : string) :
  History.history s !! History.historyIndex s = Some old ->
  c <> old ->
  length (History.history s) < 100 ->
  let i := History.historyIndex s in
  let s' := History.handleContentChange src c true s in
  History.history s' = take (i + 1) (History.history s) ++ [c] /\
  History.historyIndex s' = i + 1 /\
  History.content s' = Some c /\
  Editing.canRedo s' = false /\
  History.redo src s' = s' /\
  History.historyIndex (History.undo src s') = i /\
  History.content (History.undo src s') = Some old.
Proof.
  intros Hold Hne Hlen. cbv zeta.
  remember (History.handleContentChange src c true s) as s' eqn:Hs'.
  remember (History.historyIndex s) as i eqn:Hieq.
  assert (Hi : i < length (History.history s))
    by (by eapply lookup_lt_Some).
  assert (Hc : History.history s !! i <> Some c) by congruence.
  assert (Htake : length (take (i + 1) (History.history s)) = i + 1)
    by (rewrite length_take; lia).
  assert (Hh : History.history s' = take (i + 1) (History.history s) ++ [c]).
  { subst s'. simpl. rewrite <- Hieq.
    rewrite setHistory_updater_push by done.
    rewrite bool_decide_eq_false_2; [done|].
    rewrite length_app, Htake. simpl. lia. }
  assert (Hidx : History.historyIndex s' = i + 1).
  { subst s'. simpl. rewrite <- Hieq. by apply setHistoryIndex_updater_push. }
  assert (Hredo : Editing.canRedo s' = false).
  { unfold Editing.canRedo. rewrite Hh, Hidx, length_app, Htake. simpl.
    apply bool_decide_eq_false_2. lia. }
  split; [done|]. split; [done|]. split; [by rewrite Hs'|]. split; [done|].
  split.
  { unfold History.redo. unfold Editing.canRedo in Hredo. by rewrite Hredo. }
  unfold History.undo. rewrite Hidx.
  rewrite bool_decide_eq_true_2 by lia. simpl.
  replace (i + 1 - 1) with i by lia. split; [done|].
  rewrite Hh, lookup_app_l by lia.
  rewrite lookup_take_lt by lia. done.
Qed.

(** X2.  A commit of new content in a state whose index is in range,
    below the cap, keeps the snapshots up to the index, drops the redo
    branch and puts the new content last; nothing is left to redo, and
    one undo brings back the content that was current before. *)
Theorem commit_discards_redo_branch
    (src : Source) (s : History.AppState) (c old : string) :
  History.history s !! History.historyIndex s = Some old ->
  c <> old ->
  length (History.history s) < 100 ->
  let i := History.historyIndex s in
  let s' := History.handleContentChange src c true s in
  History.history s' = take (i + 1) (History.history s) ++ [c] /\
  History.historyIndex s' = i + 1 /\
  History.content s' = Some c /\
  Editing.canRedo s' = false /\
  History.redo src s' = s' /\
  History.historyIndex (History.undo src s') = i /\
  History.content (History.undo src s') = Some old.
Proof. apply commit_new_content. Qed.

(** X2 at an insertion made after one undo. *)
Lemma commit_discards_redo_branch_witness :
  let s := History.undo Part002
             (History.run Part002
                [History.Change "a" true; History.Change "ab" true]
                (History.init "d")) in
  History.history s !! History.historyIndex s = Some "a" /\
  History.history (History.handleContentChange Part002 "ac" true s)
    = ["d"; "a"; "ac"].
Proof.
  assert (Hold : History.history
                   (History.undo Part002
                      (History.run Part002
                         [History.Change "a" true; History.Change "ab" true]
                         (History.init "d")))
                 !! 1 = Some "a") by reflexivity.
  split; [exact Hold|].
  assert (Hne : "ac" <> "a") by discriminate.
  assert (Hlen : 3 < 100) by lia.
  exact (proj1 (commit_discards_redo_branch Part002
                  (History.undo Part002
                     (History.run Part002
                        [History.Change "a" true; History.Change "ab" true]
                        (History.init "d")))
                  "ac" "a" Hold Hne Hlen)).
Defined.

(** X3.  Redo followed at once by undo is a round trip: when there is
    something to redo, the index and the snapshots are as before and
    the document shows the snapshot at the index. *)
Theorem redo_then_undo_round_trip (src : Source) (s : History.AppState) :
  History.historyIndex s + 1 < length (History.history s) ->
  let s' := History.undo src (History.redo src s) in
  History.historyIndex s' = History.historyIndex s /\
  History.history s' = History.history s /\
  History.content s' = History.history s !! History.historyIndex s.
Proof.
  intros Hlt. unfold History.redo.
  rewrite bool_decide_eq_true_2 by lia.
  unfold History.undo. cbn [History.history History.historyIndex].
  rewrite bool_decide_eq_true_2 by lia. simpl.
  replace (History.historyIndex s + 1 - 1) with (History.historyIndex s) by lia.
  done.
Qed.

(** X3 after two insertions and one undo. *)
Lemma redo_then_undo_witness :
  let s := History.run AppTsx
             [History.Change "a" true; History.Change "ab" true; History.Undo]
             (History.init "d") in
  History.historyIndex s + 1 < length (History.history s) /\
  History.content (History.undo AppTsx (History.redo AppTsx s)) = Some "a".
Proof.
  assert (Hlt : 1 + 1 < 3) by lia.
  split; [exact Hlt|].
  exact (proj2 (proj2 (redo_then_undo_round_trip AppTsx
                         (History.run AppTsx
                            [History.Change "a" true; History.Change "ab" true;
                             History.Undo] (History.init "d")) Hlt))).
Defined.

(** X4.  Pressing undo [n] times moves the index back by [n] and stops
    at 0; the snapshots are never touched, the document shows the
    snapshot at the index reached, and then undo is disabled once the
    index is 0. *)
Theorem undo_times_stops_at_oldest (src : Source) (n : nat)
    (s : History.AppState) :
  let s' := Editing.undo_times src n s in
  History.history s' = History.history s /\
  History.historyIndex s' = History.historyIndex s - n /\
  (0 < n -> 0 < History.historyIndex s ->
   History.content s'
     = History.history s !! (History.historyIndex s - n)) /\
  (History.historyIndex s <= n -> Editing.canUndo s' = false).
Proof.
  induction n as [|n IH]; simpl.
  - split; [done|]. split; [lia|]. split; [lia|].
    intros Hle. unfold Editing.canUndo. apply bool_decide_eq_false_2. lia.
  - destruct IH as (Hh & Hi & Hc & _).
    unfold Editing.undo_times in *. simpl.
    set (s1 := Nat.iter n (History.undo src) s) in *.
    unfold History.undo. case_bool_decide as Hpos; simpl.
    + rewrite Hh, Hi. split; [done|]. split; [lia|]. split.
      * intros _ _. f_equal. lia.
      * intros Hle. unfold Editing.canUndo. simpl.
        apply bool_decide_eq_false_2. lia.
    + rewrite Hh, Hi. split; [done|]. split; [lia|]. split.
      * intros _ Hs. destruct n as [|n]; [simpl in *; subst s1; simpl in *; lia|].
        rewrite Hc by lia. f_equal. lia.
      * intros _. unfold Editing.canUndo. by apply bool_decide_eq_false_2.
Qed.

(** X4 after two insertions: two presses of undo reach the first
    snapshot and disable undo. *)
Lemma undo_times_witness :
  let s := History.run AppTsx
             [History.Change "a" true; History.Change "ab" true]
             (History.init "d") in
  0 < 2 /\ 0 < History.historyIndex s /\
  History.content (Editing.undo_times AppTsx 2 s) = Some "d" /\
  Editing.canUndo (Editing.undo_times AppTsx 2 s) = false.
Proof.
  assert (Hn : 0 < 2) by lia.
  assert (Hle : 2 <= 2) by lia.
  pose proof (undo_times_stops_at_oldest AppTsx 2
                (History.run AppTsx
                   [History.Change "a" true; History.Change "ab" true]
                   (History.init "d"))) as H.
  cbv zeta in H. destruct H as (_ & _ & Hcontent & Hdisabled).
  split; [exact Hn|]. split; [exact Hn|].
  split; [exact (Hcontent Hn Hn)|exact (Hdisabled Hle)].
Defined.

(** X5.  In [src/unnamed/part_002], for the first 99 events after
    mount (insertions, keystrokes, undo, redo, waiting) the index stays
    in range, no two neighbouring snapshots are equal and a pending
    commit holds the current history and index. *)
Theorem Part002_well_formed_before_cap (d : string) (es : list History.Event) :
  length es <= 99 ->
  History.well_formed (History.run Part002 es (History.init d)).
Proof.
  intros Hlen.
  cut (History.well_formed (History.run Part002 es (History.init d)) /\
       length (History.history (History.run Part002 es (History.init d)))
         <= 1 + length es); [by intros [H _]|].
  induction es as [|e es IH] using rev_ind.
  - split; [|simpl; lia].
    split; [unfold History.index_in_range; simpl; lia|].
    split; [|by intros t Ht].
    intros i x y Hx Hy. destruct i; simpl in *; discriminate.
  - rewrite length_app in *. simpl in *.
    destruct IH as [Hwf Hle]; [lia|].
    rewrite run_snoc. split.
    + apply Part002_step_well_formed; [done|lia].
    + pose proof (length_history_step Part002
                    (History.run Part002 es (History.init d)) e) as [Hstep _].
      lia.
Qed.

(** X5 at a short session. *)
Lemma Part002_well_formed_witness :
  length [History.Change "a" true; History.Change "ab" false;
          History.Undo; History.Elapse 700] <= 99 /\
  History.index_in_range
    (History.run Part002
       [History.Change "a" true; History.Change "ab" false;
        History.Undo; History.Elapse 700] (History.init "d")).
Proof.
  assert (Hlen : length [History.Change "a" true; History.Change "ab" false;
                         History.Undo; History.Elapse 700] <= 99)
    by (simpl; lia).
  split; [exact Hlen|].
  exact (proj1 (Part002_well_formed_before_cap "d"
                  [History.Change "a" true; History.Change "ab" false;
                   History.Undo; History.Elapse 700] Hlen)).
Defined.

(* ===================================================================== *)
(** * Further properties of [insertMarkdown] and the editing handlers *)
(* ===================================================================== *)

Section EditingFacts.
Import Markdown.

Lemma str_app_assoc (a b c : string) : (a +:+ b) +:+ c = a +:+ b +:+ c.
Proof.
  induction a as [|x a IH]; [done|].
  by rewrite !str_app_cons, IH.
Qed.

Lemma str_app_nil_r (a : string) : a +:+ "" = a.
Proof. induction a as [|x a IH]; [done|]. by rewrite str_app_cons, IH. Qed.

Lemma str_drop_app (a b : string) :
  JS.str_drop (String.length a) (a +:+ b) = b.
Proof. induction a as [|x a IH]; [by destruct b|]. by rewrite str_app_cons. Qed.

Lemma str_take_app (a b : string) :
  JS.str_take (String.length a) (a +:+ b) = a.
Proof.
  induction a as [|x a IH]; [by destruct b|].
  rewrite str_app_cons. simpl. by rewrite IH.
Qed.

Lemma str_drop_app_plus n (a b : string) :
  JS.str_drop (String.length a + n) (a +:+ b) = JS.str_drop n b.
Proof. induction a as [|x a IH]; [done|]. by rewrite str_app_cons. Qed.

Lemma or_else_nonempty a b : b <> "" -> JS.or_else a b <> "".
Proof.
  intros Hb. unfold JS.or_else, JS.truthy.
  case_bool_decide; simpl; done.
Qed.

(** The shape of a wrapping insertion: a prefix that is not empty, the
    selection or its placeholder, and a suffix. *)
Lemma insertion_of_wraps type selected :
  Editing.wraps_selection type = true ->
  Editing.insertion_prefix type <> "" /\
  (insertion_of type selected).1
    = Editing.insertion_prefix type
        +:+ JS.or_else selected (Editing.placeholder type)
        +:+ Editing.insertion_suffix type.
Proof.
  intros Hw.
  destruct type; try discriminate;
    cbn [insertion_of fst Editing.insertion_prefix Editing.insertion_suffix
         Editing.placeholder];
    (split; [done|]); rewrite ?str_app_assoc, ?str_app_nil_r; reflexivity.
Qed.

(** [table] and [line] ignore the selection. *)
Lemma insertion_of_replaces type selected :
  Editing.wraps_selection type = false ->
  insertion_of type selected = insertion_of type "".
Proof. intros Hw. by destruct type. Qed.

Ltac offset_is_length selected :=
  unfold len, JS.or_else; destruct (JS.truthy selected);
  rewrite ?str_length_app; simpl; lia.

(** The caret offset is the length of the insertion up to the part
    that is meant to follow the caret. *)
Lemma insertion_of_caret type selected :
  exists head,
    (insertion_of type selected).1 = head +:+ Editing.after_caret type /\
    (insertion_of type selected).2 = String.length head.
Proof.
  destruct type;
    cbn [insertion_of fst snd Editing.after_caret];
    try (eexists; split; [symmetry; apply str_app_nil_r|];
         offset_is_length selected).
  - exists ("[" +:+ JS.or_else selected "link text" +:+ "]").
    split; [by rewrite !str_app_assoc|]. offset_is_length selected.
  - exists ("![" +:+ JS.or_else selected "alt text" +:+ "]").
    split; [by rewrite !str_app_assoc|]. offset_is_length selected.
  - exists (JS.nl +:+ "```" +:+ JS.nl +:+ JS.or_else selected "code block"
              +:+ JS.nl +:+ "```").
    split; [by rewrite !str_app_assoc|]. offset_is_length selected.
Qed.

End EditingFacts.

Lemma insertMarkdown_unfold text type a b :
  Markdown.insertMarkdown text type a b
  = Markdown.mkInserted
      (JS.substring text 0 a
         +:+ (Markdown.insertion_of type (JS.substring text a b)).1
         +:+ JS.substring_from text b)
      (a + (Markdown.insertion_of type (JS.substring text a b)).2).
Proof.
  unfold Markdown.insertMarkdown.
  by destruct (Markdown.insertion_of type (JS.substring text a b)).
Qed.

(** A wrapping insertion makes the text longer. *)
Lemma insertMarkdown_grows text type a b :
  a <= b -> b <= String.length text ->
  Editing.wraps_selection type = true ->
  String.length text
    < String.length (Markdown.text (Markdown.insertMarkdown text type a b)).
Proof.
  intros Hse Hlen Hw. rewrite insertMarkdown_unfold. cbn [Markdown.text].
  destruct (insertion_of_wraps type (JS.substring text a b) Hw) as [Hpre Hins].
  rewrite Hins.
  rewrite (substring_partition text a b) at 1 by lia.
  rewrite !str_length_app.
  assert (Hp : 0 < String.length (Editing.insertion_prefix type))
    by (destruct (Editing.insertion_prefix type); [done|simpl; lia]).
  assert (Hx : String.length (JS.substring text a b)
               <= String.length (JS.or_else (JS.substring text a b)
                                   (Editing.placeholder type))).
  { unfold JS.or_else, JS.truthy. case_bool_decide as He; simpl; [|lia].
    rewrite He. simpl. lia. }
  lia.
Qed.

(** The caret lies within the returned text. *)
Lemma insertMarkdown_cursor_within text type a b :
  a <= b -> b <= String.length text ->
  Markdown.newCursor (Markdown.insertMarkdown text type a b)
    <= String.length (Markdown.text (Markdown.insertMarkdown text type a b)).
Proof.
  intros Hse Hlen. rewrite insertMarkdown_unfold.
  cbn [Markdown.text Markdown.newCursor].
  pose proof (cursorOffset_within_insertion type (JS.substring text a b)) as Hoff.
  unfold Markdown.len in Hoff.
  rewrite !str_length_app, substring_prefix by lia.
  rewrite str_length_take by lia. lia.
Qed.

(** X6.  Every insert type but [table] and [line] keeps the selected
    text: the result is the text before the selection, the type's
    opening marker, the selection (or the type's placeholder when
    nothing is selected), the closing marker, and the text after the
    selection, and it is longer than the input.  [table] and [line]
    put a fixed text in the place of the selection, which is lost. *)
Theorem insertMarkdown_wraps_or_replaces
    (text : string) (type : Markdown.InsertType)
    (selectionStart selectionEnd : nat) :
  selectionStart <= selectionEnd -> selectionEnd <= String.length text ->
  let r := Markdown.insertMarkdown text type selectionStart selectionEnd in
  let before := JS.substring text 0 selectionStart in
  let selected := JS.substring text selectionStart selectionEnd in
  let after := JS.substring_from text selectionEnd in
  (Editing.wraps_selection type = true ->
   Markdown.text r
     = before +:+ (Editing.insertion_prefix type
                     +:+ JS.or_else selected (Editing.placeholder type)
                     +:+ Editing.insertion_suffix type) +:+ after /\
   String.length text < String.length (Markdown.text r)) /\
  (Editing.wraps_selection type = false ->
   Markdown.text r
     = before +:+ (Markdown.insertion_of type "").1 +:+ after).
Proof.
  intros Hse Hlen r before selected after.
  subst r. rewrite insertMarkdown_unfold. fold before selected after.
  cbn [Markdown.text]. split.
  - intros Hw. destruct (insertion_of_wraps type selected Hw) as [Hpre Hins].
    rewrite <- Hins. split; [done|].
    pose proof (insertMarkdown_grows text type selectionStart selectionEnd
                  Hse Hlen Hw) as Hgrow.
    rewrite insertMarkdown_unfold in Hgrow. exact Hgrow.
  - intros Hw. by rewrite (insertion_of_replaces type selected Hw).
Qed.

(** X6 at the word "world" made a link, and at the same word replaced
    by a rule. *)
Lemma insertMarkdown_wraps_witness :
  6 <= 11 /\ 11 <= String.length "hello world" /\
  Markdown.text (Markdown.insertMarkdown "hello world" Markdown.link 6 11)
    = "hello [world](url)" /\
  Markdown.text (Markdown.insertMarkdown "hello world" Markdown.line 6 11)
    = "hello " +:+ JS.nl +:+ "---" +:+ JS.nl.
Proof.
  assert (H1 : 6 <= 11) by lia.
  assert (H2 : 11 <= String.length "hello world") by (simpl; lia).
  split; [exact H1|]. split; [exact H2|]. split.
  - exact (proj1 (proj1 (insertMarkdown_wraps_or_replaces "hello world"
                           Markdown.link 6 11 H1 H2) eq_refl)).
  - exact (proj2 (insertMarkdown_wraps_or_replaces "hello world"
                    Markdown.line 6 11 H1 H2) eq_refl).
Defined.

(** X7.  Where the caret lands: right after the insertion for every
    type, except that for a link it stops before "(url)", for an image
    before "(image_url)" and for a code block before the last line
    feed.  The offsets written as constants in the source agree with
    the lengths of the placeholders. *)
Theorem insertMarkdown_caret
    (text : string) (type : Markdown.InsertType)
    (selectionStart selectionEnd : nat) :
  let r := Markdown.insertMarkdown text type selectionStart selectionEnd in
  exists head,
    Markdown.text r
      = JS.substring text 0 selectionStart
          +:+ (head +:+ Editing.after_caret type)
          +:+ JS.substring_from text selectionEnd /\
    Markdown.newCursor r = selectionStart + String.length head.
Proof.
  intros r. subst r. rewrite insertMarkdown_unfold.
  destruct (insertion_of_caret type
              (JS.substring text selectionStart selectionEnd))
    as (head & Hins & Hoff).
  exists head. cbn [Markdown.text Markdown.newCursor].
  by rewrite Hins, Hoff.
Qed.

(** X8.  [insertTextAtCursor] replaces the selection by the given
    text: the text outside the selection is kept, the inserted text
    can be read back between the old selection start and the new
    caret, and the length changes by the difference of the two. *)
Theorem insertTextAtCursor_frame
    (text : string) (start end_ : nat) (textToInsert : string) :
  start <= end_ -> end_ <= String.length text ->
  let r := Editing.insertTextAtCursor_result text start end_ textToInsert in
  r.1 = JS.substring text 0 start +:+ textToInsert
          +:+ JS.substring_from text end_ /\
  JS.substring r.1 0 start = JS.substring text 0 start /\
  JS.substring r.1 start r.2 = textToInsert /\
  JS.substring_from r.1 r.2 = JS.substring_from text end_ /\
  String.length r.1 + (end_ - start)
    = String.length text + String.length textToInsert.
Proof.
  intros Hse Hlen. cbn [Editing.insertTextAtCursor_result fst snd].
  set (before := JS.substring text 0 start).
  set (after := JS.substring_from text end_).
  assert (Hb : String.length before = start).
  { subst before. rewrite substring_prefix by lia.
    apply str_length_take. lia. }
  assert (Ha : String.length after = String.length text - end_).
  { subst after. rewrite substring_suffix by lia. apply str_length_drop. }
  assert (Htotal : String.length (before +:+ textToInsert +:+ after)
                   = start + String.length textToInsert
                     + (String.length text - end_))
    by (rewrite !str_length_app; lia).
  pose proof (str_take_app before (textToInsert +:+ after)) as Htake.
  pose proof (str_drop_app before (textToInsert +:+ after)) as Hdrop.
  pose proof (str_drop_app_plus (String.length textToInsert) before
                (textToInsert +:+ after)) as Hdrop2.
  rewrite Hb in Htake, Hdrop, Hdrop2.
  split; [done|]. split.
  { by rewrite substring_prefix by lia. }
  split.
  { rewrite substring_middle by lia. rewrite Hdrop.
    replace (start + String.length textToInsert - start)
      with (String.length textToInsert) by lia.
    apply str_take_app. }
  split.
  { rewrite substring_suffix by lia.
    rewrite Hdrop2. apply str_drop_app. }
  lia.
Qed.

(** X8 at "world" replaced by "there". *)
Lemma insertTextAtCursor_witness :
  6 <= 11 /\ 11 <= String.length "hello world!" /\
  (Editing.insertTextAtCursor_result "hello world!" 6 11 "there").1
    = "hello there!".
Proof.
  assert (H1 : 6 <= 11) by lia.
  assert (H2 : 11 <= String.length "hello world!") by (simpl; lia).
  split; [exact H1|]. split; [exact H2|].
  exact (proj1 (insertTextAtCursor_frame "hello world!" 6 11 "there" H1 H2)).
Defined.

Lemma length_substring_middle text a b :
  a <= b -> b <= String.length text ->
  String.length (JS.substring text a b) = b - a.
Proof.
  intros Hab Hb. rewrite substring_middle by lia.
  apply str_length_take. rewrite str_length_drop. lia.
Qed.

(** A commit of the snapshot at the index changes neither the history
    nor the index. *)
Lemma commit_same_content (src : Source) (s : History.AppState) (c : string) :
  History.history s !! History.historyIndex s = Some c ->
  let s' := History.handleContentChange src c true s in
  History.history s' = History.history s /\
  History.historyIndex s' = History.historyIndex s /\
  History.content s' = Some c.
Proof.
  intros Hc. simpl.
  by rewrite setHistory_updater_same, setHistoryIndex_updater_same.
Qed.

(** X9.  Saving a selection as a preset and loading that preset over
    the same selection is a round trip: the preset holds the selected
    text, the document text and the selection end are as before, and,
    when the document was the snapshot at the index, the history gets
    no new entry. *)
Theorem preset_save_then_load_round_trip
    (src : Source) (textarea : Presets.Textarea) (now : N) (name text : string)
    (presets : list Presets.Preset) (s : History.AppState) :
  let a := Presets.selectionStart textarea in
  let b := Presets.selectionEnd textarea in
  a <= b -> b <= String.length text ->
  JS.all_white_space (JS.substring text a b) = false ->
  History.content s = Some text ->
  History.history s !! History.historyIndex s = Some text ->
  exists p s',
    last (Presets.handleSavePreset (Some textarea) text now name presets).1
      = Some p /\
    Presets.content p = JS.substring text a b /\
    Editing.insertTextAtCursor_result text a b (Presets.content p) = (text, b) /\
    Editing.insertTextAtCursor src (Some textarea) (Presets.content p) s
      = Some (s', Some b) /\
    History.history s' = History.history s /\
    History.historyIndex s' = History.historyIndex s /\
    History.content s' = Some text.
Proof.
  intros a b Hab Hb Hws Hcontent Hsnap.
  set (p := Presets.mkPreset (pretty now) name (JS.substring text a b)).
  assert (Hres : Editing.insertTextAtCursor_result text a b (Presets.content p)
                 = (text, b)).
  { unfold Editing.insertTextAtCursor_result. simpl. f_equal.
    - symmetry. apply substring_partition. lia.
    - rewrite length_substring_middle by lia. lia. }
  exists p, (History.handleContentChange src text true s).
  split.
  { rewrite handleSavePreset_appends by done. simpl. apply last_snoc. }
  split; [done|]. split; [exact Hres|]. split.
  { unfold Editing.insertTextAtCursor. rewrite Hcontent.
    fold a b. by rewrite Hres. }
  by apply commit_same_content.
Qed.

(** X9 at the selection "**bold**". *)
Lemma preset_round_trip_witness :
  0 <= 8 /\ 8 <= String.length "**bold** x" /\
  Editing.insertTextAtCursor_result "**bold** x" 0 8 "**bold**"
    = ("**bold** x", 8).
Proof.
  assert (H1 : 0 <= 8) by lia.
  assert (H2 : 8 <= String.length "**bold** x") by (simpl; lia).
  split; [exact H1|]. split; [exact H2|].
  destruct (preset_save_then_load_round_trip Part002 (Presets.mkTextarea 0 8)
              5%N "b" "**bold** x" [] (History.init "**bold** x")
              H1 H2 eq_refl eq_refl eq_refl)
    as (p & s' & Hlast & Hcontent & Hres & _).
  rewrite Hcontent in Hres. exact Hres.
Defined.

(** X10.  A toolbar insertion of a wrapping type, made while the
    document is the snapshot at the index and the history is below the
    cap, adds exactly one snapshot, the new text, at the end of the
    history; the caret lies within the new text and one undo brings the
    old text back. *)
Theorem handleInsert_adds_one_undoable_snapshot
    (src : Source) (textarea : Presets.Textarea) (type : Markdown.InsertType)
    (text : string) (s : History.AppState) :
  let a := Presets.selectionStart textarea in
  let b := Presets.selectionEnd textarea in
  a <= b -> b <= String.length text ->
  Editing.wraps_selection type = true ->
  History.content s = Some text ->
  History.history s !! History.historyIndex s = Some text ->
  length (History.history s) < 100 ->
  exists s' cursor,
    Editing.handleInsert src (Some textarea) type s = Some (s', Some cursor) /\
    History.history s'
      = take (History.historyIndex s + 1) (History.history s)
          ++ [Markdown.text (Markdown.insertMarkdown text type a b)] /\
    History.historyIndex s' = History.historyIndex s + 1 /\
    History.content s'
      = Some (Markdown.text (Markdown.insertMarkdown text type a b)) /\
    cursor <= String.length (Markdown.text (Markdown.insertMarkdown text type a b)) /\
    History.content (History.undo src s') = Some text.
Proof.
  intros a b Hab Hb Hw Hcontent Hsnap Hlen.
  set (r := Markdown.insertMarkdown text type a b).
  exists (History.handleContentChange src (Markdown.text r) true s),
         (Markdown.newCursor r).
  assert (Hgrow : String.length text < String.length (Markdown.text r))
    by (apply (insertMarkdown_grows text type a b); done).
  assert (Hne : Markdown.text r <> text).
  { intros Heq. rewrite Heq in Hgrow. lia. }
  destruct (commit_new_content src s (Markdown.text r) text Hsnap Hne Hlen)
    as (Hh & Hi & Hc & _ & _ & _ & Hundo).
  split.
  { unfold Editing.handleInsert. by rewrite Hcontent. }
  split; [exact Hh|]. split; [exact Hi|]. split; [exact Hc|].
  split; [|exact Hundo].
  apply (insertMarkdown_cursor_within text type a b); done.
Qed.

(** X10 at a bold insertion right after mount. *)
Lemma handleInsert_witness :
  6 <= 11 /\ 11 <= String.length "hello world" /\
  exists s' cursor,
    Editing.handleInsert AppTsx (Some (Presets.mkTextarea 6 11)) Markdown.bold
      (History.init "hello world") = Some (s', Some cursor) /\
    History.history s' = ["hello world"; "hello **world**"].
Proof.
  assert (H1 : 6 <= 11) by lia.
  assert (H2 : 11 <= String.length "hello world") by (simpl; lia).
  assert (H3 : length (History.history (History.init "hello world")) < 100)
    by (simpl; lia).
  split; [exact H1|]. split; [exact H2|].
  destruct (handleInsert_adds_one_undoable_snapshot AppTsx
              (Presets.mkTextarea 6 11) Markdown.bold "hello world"
              (History.init "hello world") H1 H2 eq_refl eq_refl eq_refl H3)
    as (s' & cursor & Hins & Hh & _).
  exists s', cursor. split; [exact Hins|exact Hh].
Defined.

(* ===================================================================== *)
(** * Toolbar *)
(* ===================================================================== *)

(** X11.  Whatever zoom buttons are pressed after mount, the zoom level
    stays between 50 and 200 and is a multiple of 10. *)
Theorem zoom_level_bounded (bs : list Toolbar.ZoomButton) :
  (50 <= Toolbar.zoom_after bs <= 200)%Z /\
  exists k : Z, Toolbar.zoom_after bs = (10 * k)%Z.
Proof.
  unfold Toolbar.zoom_after.
  induction bs as [|b bs IH] using rev_ind.
  - simpl. split; [lia|]. exists 10%Z. lia.
  - rewrite foldl_snoc. destruct IH as [Hrange [k Hk]].
    set (z := foldl Toolbar.press 100%Z bs) in *.
    destruct b; unfold Toolbar.press, Toolbar.zoomOut, Toolbar.zoomIn,
      Toolbar.zoomReset.
    + split; [lia|]. rewrite Hk.
      destruct (decide (10 * k - 10 < 50)%Z).
      * exists 5%Z. lia.
      * exists (k - 1)%Z. lia.
    + split; [lia|]. rewrite Hk.
      destruct (decide (200 < 10 * k + 10)%Z).
      * exists 20%Z. lia.
      * exists (k + 1)%Z. lia.
    + split; [lia|]. exists 10%Z. lia.
Qed.

(** X12.  Zoom in and zoom out undo each other away from the two ends
    and do nothing at their own end: zooming in at 200 and zooming out
    at 50 leave the level as it is. *)
Theorem zoom_in_out_inverse (z : Z) :
  (50 <= z <= 200)%Z ->
  ((z <= 190)%Z -> Toolbar.zoomOut (Toolbar.zoomIn z) = z) /\
  ((60 <= z)%Z -> Toolbar.zoomIn (Toolbar.zoomOut z) = z) /\
  ((190 < z)%Z -> Toolbar.zoomIn z = 200%Z) /\
  ((z < 60)%Z -> Toolbar.zoomOut z = 50%Z).
Proof.
  intros Hz. unfold Toolbar.zoomOut, Toolbar.zoomIn. repeat split; lia.
Qed.

(** X12 at the initial level. *)
Lemma zoom_in_out_witness :
  (50 <= 100 <= 200)%Z /\ Toolbar.zoomOut (Toolbar.zoomIn 100) = 100%Z.
Proof.
  assert (Hz : (50 <= 100 <= 200)%Z) by lia.
  split; [exact Hz|].
  assert (H190 : (100 <= 190)%Z) by lia.
  exact (proj1 (zoom_in_out_inverse 100 Hz) H190).
Defined.

(** X13.  The preset form of the toolbar, wired as in
    [src/unnamed/part_002]: a blank name submits nothing and stays in
    the field; a name with a blank selection shows the alert, saves
    nothing and still clears the field; a name with a selection that is
    not blank saves one preset under the name exactly as typed and
    clears the field.  Wired as in [src/App.tsx] the form never changes
    the collection. *)
Theorem handleCreatePreset_cases
    (newPresetName : string) (textarea : Presets.Textarea)
    (doc_content : string) (now : N) (presets : list Presets.Preset) :
  let selectedText :=
    JS.substring doc_content (Presets.selectionStart textarea)
      (Presets.selectionEnd textarea) in
  let submit := fun src =>
    Toolbar.handleCreatePreset src newPresetName (Some textarea)
      doc_content now presets in
  (JS.all_white_space newPresetName = true ->
   submit Part002 = ((presets, false), newPresetName)) /\
  (JS.all_white_space newPresetName = false ->
   JS.all_white_space selectedText = true ->
   submit Part002 = ((presets, true), "")) /\
  (JS.all_white_space newPresetName = false ->
   JS.all_white_space selectedText = false ->
   submit Part002
     = ((presets ++ [Presets.mkPreset (pretty now) newPresetName selectedText],
         false), "")) /\
  (submit AppTsx).1.1 = presets.
Proof.
  intros selectedText submit. subst submit.
  unfold Toolbar.handleCreatePreset. rewrite truthy_trim.
  split; [by intros ->|]. split.
  { intros -> Hsel. cbn [negb]. unfold Presets.onSavePreset.
    by rewrite handleSavePreset_rejects. }
  split.
  { intros -> Hsel. cbn [negb]. unfold Presets.onSavePreset.
    by rewrite handleSavePreset_appends. }
  by destruct (JS.all_white_space newPresetName).
Qed.

(** X13 at the name " b " and the selection "**bold**". *)
Lemma handleCreatePreset_witness :
  JS.all_white_space " b " = false /\
  JS.all_white_space (JS.substring "**bold** x" 0 8) = false /\
  Toolbar.handleCreatePreset Part002 " b " (Some (Presets.mkTextarea 0 8))
    "**bold** x" 7%N []
    = (([Presets.mkPreset "7" " b " "**bold**"], false), "").
Proof.
  assert (Hn : JS.all_white_space " b " = false) by reflexivity.
  assert (Hs : JS.all_white_space (JS.substring "**bold** x" 0 8) = false)
    by reflexivity.
  split; [exact Hn|]. split; [exact Hs|].
  exact (proj1 (proj2 (proj2 (handleCreatePreset_cases " b "
                                (Presets.mkTextarea 0 8) "**bold** x" 7%N [])))
               Hn Hs).
Defined.

(* ===================================================================== *)
(** * Document settings *)
(* ===================================================================== *)

Section SettingsFacts.
Import Settings.

Lemma apply_keeps_override d a :
  isFontOverridden (pdfSettings d) = true ->
  isFontOverridden (pdfSettings (apply d a)) = true.
Proof.
  intros Ho. destruct a as [t|type font]; simpl; [|done].
  unfold handleTemplateChange. by rewrite Ho.
Qed.

Lemma foldl_apply_snoc d actions a :
  foldl apply d (actions ++ [a]) = apply (foldl apply d actions) a.
Proof. by rewrite foldl_snoc. Qed.

End SettingsFacts.

(** X14.  A font chosen by hand is permanent: once [isFontOverridden]
    is set no sequence of template and font changes clears it, and
    while only templates are changed the text font and the math font
    stay as they are. *)
Theorem font_override_is_permanent
    (d : Settings.Doc) (actions : list Settings.Action) :
  Settings.isFontOverridden (Settings.pdfSettings d) = true ->
  let d' := foldl Settings.apply d actions in
  Settings.isFontOverridden (Settings.pdfSettings d') = true /\
  (Forall (fun a => Settings.is_FontChange a = false) actions ->
   Settings.textFont (Settings.pdfSettings d')
     = Settings.textFont (Settings.pdfSettings d) /\
   Settings.mathFont (Settings.pdfSettings d')
     = Settings.mathFont (Settings.pdfSettings d)).
Proof.
  intros Ho. simpl.
  induction actions as [|a actions IH] using rev_ind; [done|].
  rewrite foldl_apply_snoc. destruct IH as [IHo IHf].
  split; [by apply apply_keeps_override|].
  intros Hall. apply Forall_app in Hall as [Hall Ha].
  rewrite Forall_singleton in Ha.
  destruct (IHf Hall) as [Ht Hm].
  destruct a as [t|type font]; [|discriminate]. simpl.
  unfold Settings.handleTemplateChange. by rewrite IHo.
Qed.

(** X14 at a font chosen for the text, followed by two template
    changes. *)
Lemma font_override_witness :
  let d := Settings.handleFontChange Settings.text "Arial" Settings.initial in
  Settings.isFontOverridden (Settings.pdfSettings d) = true /\
  Settings.textFont
    (Settings.pdfSettings
       (foldl Settings.apply d
          [Settings.TemplateChange Settings.Academic;
           Settings.TemplateChange Settings.Elegant])) = "Arial".
Proof.
  assert (Ho : Settings.isFontOverridden
                 (Settings.pdfSettings
                    (Settings.handleFontChange Settings.text "Arial"
                       Settings.initial)) = true) by reflexivity.
  split; [exact Ho|].
  assert (Hall : Forall (fun a => Settings.is_FontChange a = false)
                   [Settings.TemplateChange Settings.Academic;
                    Settings.TemplateChange Settings.Elegant])
    by (repeat constructor).
  exact (proj1 (proj2 (font_override_is_permanent
                         (Settings.handleFontChange Settings.text "Arial"
                            Settings.initial)
                         [Settings.TemplateChange Settings.Academic;
                          Settings.TemplateChange Settings.Elegant] Ho) Hall)).
Defined.

(** X15.  As long as no font was chosen by hand, the fonts are those of
    the current template: after any sequence of template and font
    changes from the initial document that leaves [isFontOverridden]
    false, the text font and the math font are the table entry of the
    template in force. *)
Theorem fonts_follow_template (actions : list Settings.Action) :
  let d := foldl Settings.apply Settings.initial actions in
  Settings.isFontOverridden (Settings.pdfSettings d) = false ->
  (Settings.textFont (Settings.pdfSettings d),
   Settings.mathFont (Settings.pdfSettings d))
    = Settings.templateDefaults (Settings.template d).
Proof.
  simpl. induction actions as [|a actions IH] using rev_ind; [done|].
  rewrite foldl_apply_snoc.
  destruct a as [t|type font]; simpl; [|discriminate].
  unfold Settings.handleTemplateChange.
  destruct (Settings.isFontOverridden
              (Settings.pdfSettings (foldl Settings.apply Settings.initial actions)))
    eqn:Ho; simpl.
  - by rewrite Ho.
  - intros _. by destruct (Settings.templateDefaults t).
Qed.

(** X15 after three template changes. *)
Lemma fonts_follow_template_witness :
  Settings.textFont
    (Settings.pdfSettings
       (foldl Settings.apply Settings.initial
          [Settings.TemplateChange Settings.Modern;
           Settings.TemplateChange Settings.Typewriter]))
    = "JetBrains Mono".
Proof.
  pose proof (fonts_follow_template
                [Settings.TemplateChange Settings.Modern;
                 Settings.TemplateChange Settings.Typewriter] eq_refl) as H.
  exact (f_equal fst H).
Defined.

(** X16.  The margin handed to the PDF exporter is never 0: what the
    margins field of the header stores for an empty or unreadable
    entry, and for the entry 0, is 0, and the exporter replaces a
    margin of 0 by 15; any other number is exported as entered. *)
Theorem export_margin_never_zero (parsed : option Z) (d : Settings.Doc) :
  let m := Settings.export_margin
             (Some (Settings.pdfSettings (Settings.set_margins parsed d))) in
  m <> 0%Z /\
  (parsed = None \/ parsed = Some 0%Z -> m = 15%Z) /\
  (forall n, parsed = Some n -> n <> 0%Z -> m = n).
Proof.
  unfold Settings.export_margin, Settings.set_margins, Settings.margins_input.
  simpl. destruct parsed as [n|]; simpl.
  - destruct (Z.eqb_spec n 0) as [->|Hn]; simpl.
    + split; [done|]. split; [done|]. intros n [= <-] Hn. done.
    + destruct (Z.eqb_spec n 0) as [->|_]; [done|].
      split; [done|]. split.
      * intros [H|[= H]]; [discriminate|done].
      * by intros n' [= <-] _.
  - split; [done|]. split; [done|]. intros n H. discriminate.
Qed.

(** X16 at the entry 0 and at the entry 20. *)
Lemma export_margin_witness :
  Settings.export_margin
    (Some (Settings.pdfSettings
             (Settings.set_margins (Some 0%Z) Settings.initial))) = 15%Z /\
  Settings.export_margin
    (Some (Settings.pdfSettings
             (Settings.set_margins (Some 20%Z) Settings.initial))) = 20%Z.
Proof.
  assert (Hne : 20%Z <> 0%Z) by lia.
  split.
  - exact (proj1 (proj2 (export_margin_never_zero (Some 0%Z) Settings.initial))
             (or_intror eq_refl)).
  - exact (proj2 (proj2 (export_margin_never_zero (Some 20%Z) Settings.initial))
             20%Z eq_refl Hne).
Defined.

(* ===================================================================== *)
(** * Presets: deleting and reloading *)
(* ===================================================================== *)

Section PresetMore.
Import Presets.

Lemma elem_of_handleDeletePreset id0 presets p :
  p ∈ handleDeletePreset id0 presets <-> p ∈ presets /\ id p <> id0.
Proof.
  unfold handleDeletePreset.
  rewrite !list_elem_of_In, filter_In.
  split; intros [Hp Hid]; (split; [done|]).
  - apply negb_true_iff in Hid. by apply bool_decide_eq_false in Hid.
  - apply negb_true_iff. by apply bool_decide_eq_false.
Qed.

Lemma handleDeletePreset_sublist id0 presets :
  sublist (handleDeletePreset id0 presets) presets.
Proof.
  unfold handleDeletePreset.
  induction presets as [|p presets IH]; simpl; [done|].
  destruct (negb _); by constructor.
Qed.

Lemma handleDeletePreset_absent id0 presets :
  id0 ∉ (id <$> presets) -> handleDeletePreset id0 presets = presets.
Proof.
  unfold handleDeletePreset.
  induction presets as [|p presets IH]; simpl; [done|].
  intros Hnot. apply not_elem_of_cons in Hnot as [Hne Hnot].
  rewrite bool_decide_eq_false_2 by done. simpl. by rewrite IH.
Qed.

Lemma handleDeletePreset_app id0 l1 l2 :
  handleDeletePreset id0 (l1 ++ l2)
  = handleDeletePreset id0 l1 ++ handleDeletePreset id0 l2.
Proof. unfold handleDeletePreset. apply List.filter_app. Qed.

(** Deleting one id after another leaves the presets with none of
    those ids. *)
Lemma delete_each_spec (ids : list string) : forall presets p,
  p ∈ foldl (fun ps i => handleDeletePreset i ps) presets ids
  <-> p ∈ presets /\ id p ∉ ids.
Proof.
  induction ids as [|i ids IH]; intros presets p; simpl.
  - split; [intros Hp; split; [done|apply not_elem_of_nil]|by intros [Hp _]].
  - rewrite IH, elem_of_handleDeletePreset, not_elem_of_cons. tauto.
Qed.

End PresetMore.

(** X17.  Deleting a preset by id removes every preset with that id
    and nothing else: the presets that remain are exactly those with
    another id, in their old order; deleting an id that no preset has
    changes nothing. *)
Theorem handleDeletePreset_removes_exactly
    (id0 : string) (presets : list Presets.Preset) :
  let rest := Presets.handleDeletePreset id0 presets in
  (forall p, p ∈ rest <-> p ∈ presets /\ Presets.id p <> id0) /\
  sublist rest presets /\
  (id0 ∉ (Presets.id <$> presets) -> rest = presets).
Proof.
  split; [apply elem_of_handleDeletePreset|].
  split; [apply handleDeletePreset_sublist|apply handleDeletePreset_absent].
Qed.

(** X17 at an id that is absent from the defaults. *)
Lemma handleDeletePreset_witness :
  ("x" ∉ (Presets.id <$> Presets.DEFAULT_PRESETS)) /\
  Presets.handleDeletePreset "x" Presets.DEFAULT_PRESETS
    = Presets.DEFAULT_PRESETS.
Proof.
  assert (Hx : "x" ∉ (Presets.id <$> Presets.DEFAULT_PRESETS)).
  { simpl. rewrite !not_elem_of_cons. repeat split; try discriminate.
    apply not_elem_of_nil. }
  split; [exact Hx|].
  exact (proj2 (proj2 (handleDeletePreset_removes_exactly "x"
                         Presets.DEFAULT_PRESETS)) Hx).
Defined.

(** X18.  Saving a preset and deleting it again is a round trip when
    its id is new: the collection is as it was before the save.  In
    general the delete also takes along every older preset with the
    same id. *)
Theorem save_then_delete_round_trip
    (textarea : Presets.Textarea) (doc_content : string) (now : N)
    (name : string) (presets : list Presets.Preset) :
  JS.all_white_space
    (JS.substring doc_content (Presets.selectionStart textarea)
       (Presets.selectionEnd textarea)) = false ->
  let saved :=
    (Presets.handleSavePreset (Some textarea) doc_content now name presets).1 in
  Presets.handleDeletePreset (pretty now) saved
    = Presets.handleDeletePreset (pretty now) presets /\
  (pretty now ∉ (Presets.id <$> presets) ->
   Presets.handleDeletePreset (pretty now) saved = presets).
Proof.
  intros Hws. cbv zeta. rewrite handleSavePreset_appends by done.
  cbn [fst].
  assert (Hdel : Presets.handleDeletePreset (pretty now)
                   (presets ++ [Presets.mkPreset (pretty now) name
                      (JS.substring doc_content
                         (Presets.selectionStart textarea)
                         (Presets.selectionEnd textarea))])
                 = Presets.handleDeletePreset (pretty now) presets).
  { rewrite handleDeletePreset_app.
    unfold Presets.handleDeletePreset at 2. simpl.
    rewrite bool_decide_eq_true_2 by done. simpl. apply app_nil_r. }
  split; [exact Hdel|].
  intros Hnew. rewrite Hdel. by apply handleDeletePreset_absent.
Qed.

(** X18 at a save into the default presets. *)
Lemma save_then_delete_witness :
  JS.all_white_space (JS.substring "**bold** x" 0 8) = false /\
  Presets.handleDeletePreset "7"
    (Presets.handleSavePreset (Some (Presets.mkTextarea 0 8)) "**bold** x"
       7%N "b" Presets.DEFAULT_PRESETS).1
    = Presets.DEFAULT_PRESETS.
Proof.
  assert (Hs : JS.all_white_space (JS.substring "**bold** x" 0 8) = false)
    by reflexivity.
  split; [exact Hs|].
  assert (Hnew : pretty 7%N ∉ (Presets.id <$> Presets.DEFAULT_PRESETS)).
  { simpl. rewrite !not_elem_of_cons. repeat split; try discriminate.
    apply not_elem_of_nil. }
  exact (proj2 (save_then_delete_round_trip (Presets.mkTextarea 0 8)
                  "**bold** x" 7%N "b" Presets.DEFAULT_PRESETS Hs) Hnew).
Defined.

(** X19.  Deleting every preset does not last: once each preset of a
    collection was deleted by its id the collection is empty, the store
    holds the empty array, and the next reload shows the four default
    presets again. *)
Theorem delete_all_then_reload_restores_defaults
    (presets : list Presets.Preset) (ls : gmap string Presets.Stored) :
  let emptied :=
    foldl (fun ps i => Presets.handleDeletePreset i ps) presets
      (Presets.id <$> presets) in
  emptied = [] /\
  Presets.persist emptied ls !! "md2pdf_presets"
    = Some (Presets.ParsesToArray []) /\
  (Presets.reload (Presets.persist emptied ls)).1 = Presets.DEFAULT_PRESETS.
Proof.
  simpl.
  assert (Hempty : foldl (fun ps i => Presets.handleDeletePreset i ps) presets
                     (Presets.id <$> presets) = []).
  { apply elem_of_nil_inv. intros p Hp.
    apply delete_each_spec in Hp as [Hp Hid].
    apply Hid. by apply list_elem_of_fmap_2. }
  rewrite Hempty. split; [done|].
  unfold Presets.reload, Presets.load, Presets.persist. simpl.
  by rewrite lookup_insert_eq.
Qed.

(** X20.  Loading never fails and is stable: whatever the store holds
    under the presets key (nothing, a text that does not parse, a value
    that is no array, an empty array, an array of presets), a reload
    yields a collection that is not empty, writes it to the store, and
    a second reload yields the same collection. *)
Theorem reload_is_stable (ls : gmap string Presets.Stored) :
  let first := Presets.reload ls in
  first.1 <> [] /\
  first.2 !! "md2pdf_presets" = Some (Presets.ParsesToArray first.1) /\
  (Presets.reload first.2).1 = first.1 /\
  (forall items, ls !! "md2pdf_presets" = Some (Presets.ParsesToArray items) ->
     items <> [] -> first.1 = items) /\
  (ls !! "md2pdf_presets" = None \/
   ls !! "md2pdf_presets" = Some Presets.Unparsable \/
   ls !! "md2pdf_presets" = Some Presets.ParsesToOther \/
   ls !! "md2pdf_presets" = Some (Presets.ParsesToArray []) ->
   first.1 = Presets.DEFAULT_PRESETS).
Proof.
  simpl.
  assert (Hne : Presets.load ls <> []).
  { unfold Presets.load.
    destruct (ls !! "md2pdf_presets") as [[items| |]|]; try done.
    case_bool_decide as Hlen; [|done]. by destruct items; [simpl in Hlen; lia|]. }
  split; [exact Hne|].
  assert (Hstored : Presets.persist (Presets.load ls) (Presets.persist [] ls)
                      !! "md2pdf_presets"
                    = Some (Presets.ParsesToArray (Presets.load ls)))
    by (unfold Presets.persist; by rewrite lookup_insert_eq).
  split; [exact Hstored|]. split.
  { unfold Presets.load at 1. rewrite Hstored.
    rewrite bool_decide_eq_true_2; [done|].
    destruct (Presets.load ls); [done|simpl; lia]. }
  split.
  { intros items Hitems Hitems_ne. unfold Presets.load. rewrite Hitems.
    rewrite bool_decide_eq_true_2; [done|].
    destruct items; [done|simpl; lia]. }
  unfold Presets.load. intros [-> | [-> | [-> | ->]]]; done.
Qed.

(** X20 at the empty store. *)
Lemma reload_witness :
  (∅ : gmap string Presets.Stored) !! "md2pdf_presets" = None /\
  (Presets.reload ∅).1 = Presets.DEFAULT_PRESETS.
Proof.
  assert (Hnone : (∅ : gmap string Presets.Stored) !! "md2pdf_presets" = None)
    by reflexivity.
  split; [exact Hnone|].
  exact (proj2 (proj2 (proj2 (proj2 (reload_is_stable ∅)))) (or_introl Hnone)).
Defined.

(* ===================================================================== *)
(** * The line-number plugin *)
(* ===================================================================== *)

Section HastFacts.
Import Hast.

(** Induction over a tree whose children hang in a list. *)
Lemma Node_children_ind (P : Node -> Prop) :
  (forall ty pos props ch,
     match ch with Some cs => Forall P cs | None => True end ->
     P (mkNode ty pos props ch)) ->
  forall n, P n.
Proof.
  intros Hnode. fix IH 1. intros [ty pos props [cs|]].
  - apply Hnode. induction cs as [|c cs IHcs]; constructor; [apply IH|exact IHcs].
  - by apply Hnode.
Qed.

Lemma type_visit n : type (visit n) = type n.
Proof. by destruct n. Qed.

Lemma position_visit n : position (visit n) = position n.
Proof. by destruct n. Qed.

Lemma start_line_visit n : start_line (visit n) = start_line n.
Proof. unfold start_line. by rewrite position_visit. Qed.

(** What [visit] does to the properties of the node it is called on. *)
Lemma properties_visit n :
  properties (visit n)
  = match start_line n with
    | Some l =>
        if bool_decide (type n = "element")
        then Some (<["data-line" := PNumber l]> (default ∅ (properties n)))
        else properties n
    | None => properties n
    end.
Proof.
  destruct n as [ty [[[st|]]|] props ch]; unfold start_line; simpl;
    by case_bool_decide.
Qed.

Lemma children_visit n :
  children (visit n) = (List.map visit) <$> children n.
Proof. by destruct n as [ty pos props [cs|]]. Qed.

Lemma flat_map_map_Forall {A B} (f : A -> A) (g : A -> list B) (h : B -> B) cs :
  Forall (fun c => g (f c) = List.map h (g c)) cs ->
  flat_map g (List.map f cs) = List.map h (flat_map g cs).
Proof.
  induction 1 as [|c cs Hc _ IH]; simpl; [done|].
  by rewrite List.map_app, Hc, IH.
Qed.

(** The nodes of the visited tree are the visited nodes of the tree,
    in the same order. *)
Lemma subnodes_visit n : subnodes (visit n) = List.map visit (subnodes n).
Proof.
  induction n as [ty pos props ch IH] using Node_children_ind.
  destruct ch as [cs|]; [|done].
  change (subnodes (visit (mkNode ty pos props (Some cs))))
    with (visit (mkNode ty pos props (Some cs))
            :: flat_map subnodes (List.map visit cs)).
  change (subnodes (mkNode ty pos props (Some cs)))
    with (mkNode ty pos props (Some cs) :: flat_map subnodes cs).
  simpl List.map. f_equal. by apply flat_map_map_Forall.
Qed.

Lemma map_ext_Forall {A B} (f g : A -> B) cs :
  Forall (fun c => f c = g c) cs -> List.map f cs = List.map g cs.
Proof. induction 1 as [|c cs Hc _ IH]; simpl; [done|]. by rewrite Hc, IH. Qed.

Lemma visit_idempotent n : visit (visit n) = visit n.
Proof.
  induction n as [ty pos props ch IH] using Node_children_ind.
  simpl. f_equal.
  - case_bool_decide; [|done].
    destruct pos as [[[st|]]|]; try done. simpl.
    by rewrite insert_insert_eq.
  - destruct ch as [cs|]; [|done]. f_equal.
    rewrite List.map_map. by apply map_ext_Forall.
Qed.

Lemma without_data_line_visit n :
  without_data_line (visit n) = without_data_line n.
Proof.
  induction n as [ty pos props ch IH] using Node_children_ind.
  simpl. f_equal.
  - case_bool_decide; [|done].
    destruct pos as [[[st|]]|]; try done. simpl.
    by rewrite delete_insert_eq.
  - destruct ch as [cs|]; [|done]. f_equal.
    rewrite List.map_map. by apply map_ext_Forall.
Qed.

End HastFacts.

(** X21.  After the plugin ran, every element of the tree that has a
    start position, at whatever depth, carries the property
    [data-line] with the line of that position, also when it had no
    property object or another [data-line] before. *)
Theorem rehypeInjectLineNumber_annotates
    (tree m : Hast.Node) (l : Z) :
  m ∈ Hast.subnodes (Hast.rehypeInjectLineNumber tree) ->
  Hast.type m = "element" ->
  Hast.start_line m = Some l ->
  Hast.data_line m = Some (Hast.PNumber l).
Proof.
  unfold Hast.rehypeInjectLineNumber. rewrite subnodes_visit.
  intros Hm Hty Hl.
  apply list_elem_of_In, in_map_iff in Hm as (n & <- & _).
  rewrite type_visit in Hty. rewrite start_line_visit in Hl.
  unfold Hast.data_line. rewrite properties_visit, Hl.
  rewrite bool_decide_eq_true_2 by done.
  apply lookup_insert_eq.
Qed.

(** X21 at a paragraph of line 3 inside a root without position. *)
Lemma rehypeInjectLineNumber_witness :
  let p := Hast.mkNode "element"
             (Some (Hast.mkPosition (Some (Hast.mkPoint 3 1)))) None None in
  let tree := Hast.mkNode "root" None None (Some [p]) in
  Hast.subnodes (Hast.rehypeInjectLineNumber tree) !! 1
    = Some (Hast.visit p) /\
  Hast.data_line (Hast.visit p) = Some (Hast.PNumber 3).
Proof.
  split; [reflexivity|].
  apply (rehypeInjectLineNumber_annotates
           (Hast.mkNode "root" None None
              (Some [Hast.mkNode "element"
                       (Some (Hast.mkPosition (Some (Hast.mkPoint 3 1))))
                       None None]))
           _ 3%Z).
  - apply list_elem_of_lookup. exists 1. reflexivity.
  - reflexivity.
  - reflexivity.
Defined.

(** X22.  The plugin touches nothing but [data-line]: the tree keeps
    its nodes and their order, types, positions and every other
    property; a node that is no element, or has no start position, keeps
    its properties as they are, a [data-line] it may carry included. *)
Theorem rehypeInjectLineNumber_frame (tree : Hast.Node) :
  Hast.without_data_line (Hast.rehypeInjectLineNumber tree)
    = Hast.without_data_line tree /\
  Hast.subnodes (Hast.rehypeInjectLineNumber tree)
    = List.map Hast.visit (Hast.subnodes tree) /\
  (forall n, Hast.type (Hast.visit n) = Hast.type n /\
             Hast.position (Hast.visit n) = Hast.position n) /\
  (forall n, Hast.type n <> "element" \/ Hast.start_line n = None ->
             Hast.properties (Hast.visit n) = Hast.properties n).
Proof.
  split; [apply without_data_line_visit|].
  split; [apply subnodes_visit|].
  split; [intros n; split; [apply type_visit|apply position_visit]|].
  intros n Hn. rewrite properties_visit.
  destruct (Hast.start_line n) as [l|] eqn:Hl; [|done].
  destruct Hn as [Hty|Hnone]; [|discriminate].
  by rewrite bool_decide_eq_false_2.
Qed.

(** X22 at a text node that carries a [data-line] of its own. *)
Lemma rehypeInjectLineNumber_frame_witness :
  let n := Hast.mkNode "text"
             (Some (Hast.mkPosition (Some (Hast.mkPoint 3 1))))
             (Some {["data-line" := Hast.PString "7"]}) None in
  Hast.type n <> "element" /\
  Hast.properties (Hast.visit n) = Hast.properties n.
Proof.
  assert (Hne : "text" <> "element") by discriminate.
  split; [exact Hne|].
  exact (proj2 (proj2 (proj2 (rehypeInjectLineNumber_frame
                                (Hast.mkNode "root" None None None))))
           (Hast.mkNode "text"
              (Some (Hast.mkPosition (Some (Hast.mkPoint 3 1))))
              (Some {["data-line" := Hast.PString "7"]}) None)
           (or_introl Hne)).
Defined.

(** X23.  Running the plugin twice gives the same tree as running it
    once. *)
Theorem rehypeInjectLineNumber_idempotent (tree : Hast.Node) :
  Hast.rehypeInjectLineNumber (Hast.rehypeInjectLineNumber tree)
    = Hast.rehypeInjectLineNumber tree.
Proof. apply visit_idempotent. Qed.

(* ===================================================================== *)
(** * Autosave *)
(* ===================================================================== *)

Section AutosaveFacts.
Import Autosave.
Context {Doc : Type}.

Lemma autosave_run_snoc (es : list (Event Doc)) e s :
  run (es ++ [e]) s = step (run es s) e.
Proof. unfold run. by rewrite foldl_snoc. Qed.

Lemma autosave_step_inv (s : State Doc) e :
  autosave_inv s -> autosave_inv (step s e).
Proof.
  intros (Hind & Htimer & Hun). destruct e as [d|ms]; simpl.
  - split; [intros Hs; discriminate|].
    split; [|done]. intros t [= <-]. done.
  - unfold elapse. destruct (saveTimeoutRef s) as [t|] eqn:Ht.
    + case_bool_decide.
      * split; [intros _; simpl; split; [|done]; f_equal; by apply Htimer|].
        split; [intros t' Ht'; discriminate|done].
      * split.
        { intros Hs. simpl in Hs. destruct (Hind Hs) as [_ Hnone].
          rewrite Ht in Hnone. discriminate. }
        split; [|done]. intros t' Ht'. simpl in *. apply Htimer.
        by rewrite Ht.
    + split.
      { intros Hs. simpl in *. destruct (Hind Hs) as [Hst _]. done. }
      split; [|done]. intros t' Ht'. discriminate.
Qed.

Lemma autosave_run_inv (es : list (Event Doc)) s :
  autosave_inv s -> autosave_inv (run es s).
Proof.
  induction es as [|e es IH] using rev_ind; intros Hs; [done|].
  rewrite autosave_run_snoc. by apply autosave_step_inv, IH.
Qed.

Lemma last_doc_cons (d : Doc) gap d' changes :
  last_doc d ((gap, d') :: changes) = last_doc d' changes.
Proof. unfold last_doc. simpl. apply last_cons_default. Qed.

Lemma run_autosave_burst (stored : option Doc) changes : forall (d : Doc) t,
  Forall (fun p => p.1 < 1000) changes ->
  exists t', run (burst changes) (unsaved_since d stored t)
             = unsaved_since (last_doc d changes) stored t'.
Proof.
  induction changes as [|[gap d'] changes IH]; intros d t Hgaps.
  - by exists t.
  - apply Forall_cons in Hgaps as [Hgap Hgaps]. simpl in Hgap.
    destruct (IH d' (t + gap) Hgaps) as [t' Ht'].
    exists t'.
    change (run (burst ((gap, d') :: changes)) (unsaved_since d stored t))
      with (run (burst changes)
              (setDoc d' (elapse gap (unsaved_since d stored t)))).
    assert (Hstep : setDoc d' (elapse gap (unsaved_since d stored t))
                    = unsaved_since d' stored (t + gap)).
    { unfold elapse, unsaved_since. simpl.
      by rewrite bool_decide_eq_false_2 by lia. }
    by rewrite Hstep, Ht', last_doc_cons.
Qed.

End AutosaveFacts.

(** X24.  The save indicator tells the truth: in every state reached
    after mount by document changes and waiting, "saved" is shown only
    while the store holds exactly the current document and no write is
    pending; a pending write is always a write of the current document;
    and the status "unsaved" is never shown. *)
Theorem save_indicator_truthful
    (Doc : Type) (d : Doc) (stored : option Doc)
    (es : list (Autosave.Event Doc)) :
  let s := Autosave.run es (Autosave.mounted d stored) in
  (Autosave.saveStatus s = Autosave.saved ->
   Autosave.md2pdf_autosave s = Some (Autosave.doc s) /\
   Autosave.saveTimeoutRef s = None) /\
  (forall t, Autosave.saveTimeoutRef s = Some t ->
             Autosave.st_doc t = Autosave.doc s) /\
  Autosave.saveStatus s <> Autosave.unsaved.
Proof.
  apply (autosave_run_inv es (Autosave.mounted d stored)).
  split; [intros Hs; discriminate|].
  split; [|done]. intros t [= <-]. done.
Qed.

(** X24 at one change followed by a quiet second. *)
Lemma save_indicator_witness :
  let s := Autosave.run [Autosave.SetDoc "b"; Autosave.Elapse 1000]
             (Autosave.mounted "a" None) in
  Autosave.saveStatus s = Autosave.saved /\
  Autosave.md2pdf_autosave s = Some "b".
Proof.
  assert (Hs : Autosave.saveStatus
                 (Autosave.run [Autosave.SetDoc "b"; Autosave.Elapse 1000]
                    (Autosave.mounted "a" None)) = Autosave.saved)
    by reflexivity.
  split; [exact Hs|].
  exact (proj1 (proj1 (save_indicator_truthful string "a" None
                         [Autosave.SetDoc "b"; Autosave.Elapse 1000]) Hs)).
Defined.

(** X25.  Autosave is debounced: a burst of document changes, each
    less than a second after the one before, writes nothing to the
    store and shows "saving"; a full second after the last change the
    store holds the last document, and only that one, and "saved" is
    shown. *)
Theorem autosave_writes_last_document_once
    (Doc : Type) (s : Autosave.State Doc) (d0 : Doc)
    (changes : list (nat * Doc)) (wait : nat) :
  Forall (fun p => p.1 < 1000) changes -> 1000 <= wait ->
  let dN := Autosave.last_doc d0 changes in
  let s1 := Autosave.run (Autosave.SetDoc d0 :: Autosave.burst changes) s in
  let s2 := Autosave.elapse wait s1 in
  (Autosave.md2pdf_autosave s1 = Autosave.md2pdf_autosave s /\
   Autosave.saveStatus s1 = Autosave.saving /\
   Autosave.doc s1 = dN) /\
  (Autosave.md2pdf_autosave s2 = Some dN /\
   Autosave.saveStatus s2 = Autosave.saved /\
   Autosave.saveTimeoutRef s2 = None /\
   Autosave.doc s2 = dN).
Proof.
  intros Hgaps Hwait dN s1 s2.
  destruct (run_autosave_burst (Autosave.md2pdf_autosave s) changes d0
              (Autosave.clock s) Hgaps) as [t Ht].
  assert (Hs1 : s1 = Autosave.unsaved_since dN (Autosave.md2pdf_autosave s) t).
  { subst s1 dN. rewrite <- Ht. reflexivity. }
  split; [by rewrite Hs1|].
  subst s2. rewrite Hs1. unfold Autosave.elapse, Autosave.unsaved_since. simpl.
  by rewrite bool_decide_eq_true_2 by lia.
Qed.

(** X25 at three changes 100 ms and 200 ms apart. *)
Lemma autosave_debounce_witness :
  Forall (fun p : nat * string => p.1 < 1000) [(100, "ab"); (200, "abc")] /\
  1000 <= 1000 /\
  Autosave.md2pdf_autosave
    (Autosave.elapse 1000
       (Autosave.run
          (Autosave.SetDoc "a" :: Autosave.burst [(100, "ab"); (200, "abc")])
          (Autosave.mounted "" None))) = Some "abc".
Proof.
  assert (Hgaps : Forall (fun p : nat * string => p.1 < 1000)
                    [(100, "ab"); (200, "abc")])
    by (repeat constructor; simpl; lia).
  assert (Hwait : 1000 <= 1000) by lia.
  split; [exact Hgaps|]. split; [exact Hwait|].
  exact (proj1 (proj2 (autosave_writes_last_document_once string
                         (Autosave.mounted "" None) "a"
                         [(100, "ab"); (200, "abc")] 1000 Hgaps Hwait))).
Defined.

(* ===================================================================== *)
(** * The two synchronisers together *)
(* ===================================================================== *)

(** X27.  The two synchronisers never act on the same event stream:
    in every view mode and for every state of the sync switch, either a
    scroll event copies nothing, or a click on the editor and a click on
    the preview both do nothing. *)
Theorem synchronisers_exclusive
    (src : Source) (viewMode : View.ViewMode) (isSyncActive : bool)
    (source : Scroll.PaneName) (editorRef previewRef : option Scroll.Pane)
    (value : string) (caret : nat) (previewEl : option (list Sync.Element))
    (chain : list Sync.Element) (textareaRef editorContainerRef : bool)
    (fontSize : Sync.FontSize) :
  View.onScroll src viewMode isSyncActive source editorRef previewRef = None \/
  (Sync.handleEditorClick isSyncActive value caret previewEl = None /\
   Sync.handlePreviewClick isSyncActive chain textareaRef editorContainerRef
     fontSize = None).
Proof.
  destruct isSyncActive.
  - left. by destruct viewMode.
  - right. done.
Qed.

(* ===================================================================== *)
(** * Further properties of the position mapper *)
(* ===================================================================== *)

Section SyncMore.
Import Sync.

Lemma find_first {A} (f : A -> bool) l x :
  List.find f l = Some x ->
  exists i, l !! i = Some x /\ f x = true /\
            forall j y, j < i -> l !! j = Some y -> f y = false.
Proof.
  induction l as [|a l IH]; simpl; [done|].
  destruct (f a) eqn:Hfa.
  - intros [= <-]. exists 0. repeat split; [done|]. intros j y Hj. lia.
  - intros Hfind. destruct (IH Hfind) as (i & Hi & Hfx & Hbefore).
    exists (S i). repeat split; [done..|].
    intros [|j] y Hj Hy.
    + by simplify_eq/=.
    + apply (Hbefore j); [lia|done].
Qed.

Lemma find_None_all {A} (f : A -> bool) l x :
  List.find f l = None -> x ∈ l -> f x = false.
Proof.
  intros Hnone Hx. apply (find_none f l Hnone). by apply list_elem_of_In.
Qed.

(** The fallback of [findTarget] is the last element. *)
Lemma findTarget_fallback elements clicked :
  List.find (fun el => (clicked <=? parseInt_data_line el)%Z) elements = None ->
  findTarget elements clicked = last elements.
Proof.
  intros Hnone. unfold findTarget. rewrite Hnone.
  rewrite find_reverse_last_filter. f_equal.
  induction elements as [|el els IH]; [done|]. simpl in *.
  destruct (clicked <=? parseInt_data_line el)%Z eqn:Hle; [done|].
  apply Z.leb_gt in Hle.
  rewrite (proj2 (Z.leb_le _ _)) by lia. f_equal. by apply IH.
Qed.

Lemma count_str_take_le c n m s :
  n <= m -> JS.count c (JS.str_take n s) <= JS.count c (JS.str_take m s).
Proof.
  revert n m. induction s as [|a r IH]; intros n m Hnm.
  - destruct n, m; simpl; lia.
  - destruct n as [|n], m as [|m]; simpl; try lia.
    pose proof (IH n m). lia.
Qed.

Lemma substring_0 s c :
  JS.substring s 0 c = JS.str_take (c `min` String.length s) s.
Proof.
  unfold JS.substring.
  rewrite Nat.min_0_l, Nat.min_0_l, Nat.max_0_l, Nat.sub_0_r. by destruct s.
Qed.

End SyncMore.

(** X28.  With sync mode active an editor click resolves to an element
    whenever the preview holds at least one annotated element: the
    click does nothing only if there is none; and the element it
    resolves to is an annotated element of the preview. *)
Theorem handleEditorClick_resolves
    (value : string) (caret : nat) (descendants : list Sync.Element) :
  (Sync.handleEditorClick true value caret (Some descendants) = None <->
   Sync.querySelectorAll_data_line descendants = []) /\
  (forall el,
     Sync.handleEditorClick true value caret (Some descendants) = Some el ->
     el ∈ descendants /\ is_Some (Sync.data_line el)).
Proof.
  unfold Sync.handleEditorClick. simpl.
  set (els := Sync.querySelectorAll_data_line descendants).
  set (L := Z.of_nat (Sync.lineNumber value caret)).
  assert (Hmem : forall el, Sync.findTarget els L = Some el -> el ∈ els).
  { intros el. unfold Sync.findTarget.
    destruct (List.find _ els) as [x|] eqn:Hfirst.
    - intros [= <-]. apply find_some in Hfirst as [Hin _].
      by apply list_elem_of_In.
    - cbv zeta. intros Hsecond. apply find_some in Hsecond as [Hin _].
      apply list_elem_of_In in Hin. by rewrite elem_of_reverse in Hin. }
  split.
  - split.
    + intros Hnone. destruct els as [|el els'] eqn:Hels; [done|]. exfalso.
      unfold Sync.findTarget in Hnone.
      destruct (List.find (fun el => (L <=? Sync.parseInt_data_line el)%Z)
                  (el :: els')) eqn:Hfirst; [done|].
      assert (Hel1 : (L <=? Sync.parseInt_data_line el)%Z = false)
        by (apply (find_None_all _ _ el Hfirst); left).
      assert (Hel2 : (Sync.parseInt_data_line el <=? L)%Z = false).
      { apply (find_None_all _ _ el Hnone). apply elem_of_reverse. left. }
      apply Z.leb_gt in Hel1. apply Z.leb_gt in Hel2. lia.
    + by intros ->.
  - intros el Hel. apply Hmem in Hel. subst els.
    unfold Sync.querySelectorAll_data_line in Hel.
    apply list_elem_of_In, filter_In in Hel as [Hin Hhas].
    split; [by apply list_elem_of_In|].
    unfold Sync.has_data_line in Hhas.
    by destruct (Sync.data_line el).
Qed.

(** X28 at a preview with one annotated heading. *)
Lemma handleEditorClick_resolves_witness :
  Sync.handleEditorClick true "a" 0
    (Some [Sync.mkElement 0 None; Sync.mkElement 1 (Some 4%Z)])
    = Some (Sync.mkElement 1 (Some 4%Z)) /\
  Sync.mkElement 1 (Some 4%Z)
    ∈ [Sync.mkElement 0 None; Sync.mkElement 1 (Some 4%Z)].
Proof.
  assert (Hclick : Sync.handleEditorClick true "a" 0
                     (Some [Sync.mkElement 0 None; Sync.mkElement 1 (Some 4%Z)])
                   = Some (Sync.mkElement 1 (Some 4%Z))) by reflexivity.
  split; [exact Hclick|].
  exact (proj1 (proj2 (handleEditorClick_resolves "a" 0
                         [Sync.mkElement 0 None; Sync.mkElement 1 (Some 4%Z)])
                 _ Hclick)).
Defined.

(** X29.  When the lines of the annotated elements do not decrease in
    document order, the click resolves to the nearest block: if some
    element lies at or after the clicked line, the result carries the
    least such line; otherwise every element lies before the clicked
    line and the result carries the greatest line of all. *)
Theorem findTarget_nearest
    (elements : list Sync.Element) (clicked : Z) (el : Sync.Element) :
  View.lines_nondecreasing elements ->
  Sync.findTarget elements clicked = Some el ->
  ((clicked <= Sync.parseInt_data_line el)%Z /\
   forall el', el' ∈ elements ->
     (clicked <= Sync.parseInt_data_line el')%Z ->
     (Sync.parseInt_data_line el <= Sync.parseInt_data_line el')%Z) \/
  ((Sync.parseInt_data_line el < clicked)%Z /\
   forall el', el' ∈ elements ->
     (Sync.parseInt_data_line el' < clicked)%Z /\
     (Sync.parseInt_data_line el' <= Sync.parseInt_data_line el)%Z).
Proof.
  intros Hsorted Hfind.
  destruct (List.find (fun el => (clicked <=? Sync.parseInt_data_line el)%Z)
              elements) as [x|] eqn:Hfirst.
  - left. unfold Sync.findTarget in Hfind. rewrite Hfirst in Hfind.
    injection Hfind as ->.
    apply find_first in Hfirst as (i & Hi & Hle & Hbefore).
    apply Z.leb_le in Hle. split; [done|].
    intros el' Hel' Hle'. apply list_elem_of_lookup in Hel' as [j Hj].
    destruct (decide (i <= j)) as [Hij|Hij].
    + by apply (Hsorted i j).
    + assert (Hf : (clicked <=? Sync.parseInt_data_line el')%Z = false)
        by (apply (Hbefore j); [lia|done]).
      apply Z.leb_gt in Hf. lia.
  - right. rewrite findTarget_fallback in Hfind by done.
    assert (Hall : forall el', el' ∈ elements ->
                     (Sync.parseInt_data_line el' < clicked)%Z).
    { intros el' Hel'. apply Z.leb_gt.
      by apply (find_None_all _ _ el' Hfirst). }
    assert (Hin : el ∈ elements).
    { apply last_Some in Hfind as [l' ->]. apply elem_of_app. right. left. }
    split; [by apply Hall|].
    intros el' Hel'. split; [by apply Hall|].
    apply list_elem_of_lookup in Hel' as [j Hj].
    rewrite last_lookup in Hfind.
    apply (Hsorted j (pred (length elements))); [|done..].
    apply lookup_lt_Some in Hj. lia.
Qed.

(** X29 at the annotations 2, 5, 9 and the clicked line 3. *)
Lemma findTarget_nearest_witness :
  View.lines_nondecreasing (Sync.annotated [2; 5; 9]%Z) /\
  Sync.findTarget (Sync.annotated [2; 5; 9]%Z) 3
    = Some (Sync.mkElement 1 (Some 5%Z)) /\
  (forall el', el' ∈ Sync.annotated [2; 5; 9]%Z ->
     (3 <= Sync.parseInt_data_line el')%Z ->
     (5 <= Sync.parseInt_data_line el')%Z).
Proof.
  assert (Hsorted : View.lines_nondecreasing (Sync.annotated [2; 5; 9]%Z)).
  { intros i j a b Hij Ha Hb.
    destruct i as [|[|[|i]]]; destruct j as [|[|[|j]]];
      vm_compute in Ha, Hb; simplify_eq; try lia; by vm_compute. }
  assert (Hfind : Sync.findTarget (Sync.annotated [2; 5; 9]%Z) 3
                  = Some (Sync.mkElement 1 (Some 5%Z))) by reflexivity.
  split; [exact Hsorted|]. split; [exact Hfind|].
  destruct (findTarget_nearest (Sync.annotated [2; 5; 9]%Z) 3
              (Sync.mkElement 1 (Some 5%Z)) Hsorted Hfind)
    as [[_ Hleast]|[Hlt _]].
  - exact Hleast.
  - by vm_compute in Hlt.
Defined.

(** X30.  The clicked line is 1-based and never exceeds the number of
    lines of the text; it does not decrease when the caret moves to the
    right, and a caret at or past the end of the text is on the last
    line. *)
Theorem lineNumber_bounds (value : string) (caret caret' : nat) :
  1 <= Sync.lineNumber value caret <= JS.count JS.LF value + 1 /\
  (caret <= caret' ->
   Sync.lineNumber value caret <= Sync.lineNumber value caret') /\
  (String.length value <= caret ->
   Sync.lineNumber value caret = JS.count JS.LF value + 1).
Proof.
  unfold Sync.lineNumber. rewrite !length_split, !substring_0.
  pose proof (count_str_take_le JS.LF (caret `min` String.length value)
                (String.length value) value) as Hmax.
  rewrite (str_take_all (String.length value) value) in Hmax by lia.
  split; [lia|]. split.
  - intros Hle.
    pose proof (count_str_take_le JS.LF (caret `min` String.length value)
                  (caret' `min` String.length value) value).
    lia.
  - intros Hend. rewrite Nat.min_r by lia.
    by rewrite str_take_all by lia.
Qed.

(** X30 at the scenario text. *)
Lemma lineNumber_bounds_witness :
  5 <= 12 /\
  Sync.lineNumber Sync.three_lines 5 <= Sync.lineNumber Sync.three_lines 12.
Proof.
  assert (Hle : 5 <= 12) by lia.
  split; [exact Hle|].
  exact (proj1 (proj2 (lineNumber_bounds Sync.three_lines 5 12)) Hle).
Defined.
